(** * Sequential retrieval example: the sequence builder and the in-batch loss

    A shallow embedding of [examples/sequential_retrieval.py]:
    - [get_movie_sequence_per_user] groups the rating rows by user and sorts
      every group by timestamp;
    - [generate_examples_from_user_sequences] turns every user sequence into
      growing-window training examples, padded to a fixed window length;
    - [compute_loss] scores a batch of queries against the batch's own label
      items and feeds the scores and one-hot labels to the loss.

    Python integers are [Z]; a Python list is a [list]; [IndexError] is a
    value of [result].  The dictionary returned by
    [get_movie_sequence_per_user] is an association list in insertion order,
    which is the order [dict.values()] iterates in. *)

From stdpp Require Import base list sorting strings gmap.
From Equations Require Import Equations.
From Stdlib Require Import ZArith Lia.
Local Open Scope Z_scope.

(** ** Data model *)

(** One entry of a user sequence: the dictionary
    [{"movie_id": _, "timestamp": _, "rating": _}].  The ratings of the data
    set are whole numbers, and the padding's [0.0] is the number zero. *)
Record interaction := Interaction {
  movie_id : Z;
  timestamp : Z;
  rating : Z
}.

(** One training example: [{"context_movie_id": _, "label_movie_id": _}]. *)
Record example := Example {
  context_movie_id : list Z;
  label_movie_id : Z
}.

(** One row of [ratings_df.values]: [(user_id, movie_id, rating, timestamp)]. *)
Definition row : Type := Z * Z * Z * Z.

(** [sequences]: user id to user sequence, in insertion order. *)
Definition sequences_dict : Type := list (Z * list interaction).

Definition dict_values (sequences : sequences_dict) : list (list interaction) :=
  snd <$> sequences.

(** [sequences.get(user_id)] *)
Fixpoint dict_get (sequences : sequences_dict) (user_id : Z)
  : option (list interaction) :=
  match sequences with
  | [] => None
  | (k, v) :: rest => if decide (k = user_id) then Some v else dict_get rest user_id
  end.

(** ** Python primitives *)

(** The exceptions of the language that the modelled code can meet;
    [LoopBound] is not one of them: it marks a loop of the store model that
    ran out of its bound on the number of turns. *)
Inductive exn := IndexError | TypeError | ValueError | LoopBound.

Inductive result (A : Type) :=
| Ok (a : A)
| Raise (e : exn).
Arguments Ok {A} a.
Arguments Raise {A} e.

#[global] Instance result_ret : MRet result := λ A a, Ok a.
#[global] Instance result_bind : MBind result := λ A B f m,
  match m with
  | Ok a => f a
  | Raise e => Raise e
  end.

(** [len(l)] *)
Definition py_len {A} (l : list A) : Z := Z.of_nat (length l).

(** [range(lo, hi)] *)
Definition py_range (lo hi : Z) : list Z := seqZ lo (hi - lo).

(** How a slice bound is clipped to [0 .. len]: a negative bound counts from
    the end. *)
Definition slice_bound (n i : Z) : Z :=
  if i <? 0 then Z.max (i + n) 0 else Z.min i n.

(** [l[start:stop]]: always a new list. *)
Definition py_slice {A} (l : list A) (start stop : Z) : list A :=
  let lo := slice_bound (py_len l) start in
  let hi := slice_bound (py_len l) stop in
  take (Z.to_nat (hi - lo)) (drop (Z.to_nat lo) l).

(** [l[i]]: a negative index counts from the end; out of range raises. *)
Definition py_getitem {A} (l : list A) (i : Z) : result A :=
  let j := if i <? 0 then i + py_len l else i in
  if j <? 0 then Raise IndexError
  else match l !! Z.to_nat j with
       | Some x => Ok x
       | None => Raise IndexError
       end.

(** [for x in xs: s = body(x, s)], where the body may raise. *)
Fixpoint for_each {A S} (xs : list A) (body : A → S → result S) (s : S)
  : result S :=
  match xs with
  | [] => Ok s
  | x :: xs' => s' ← body x s; for_each xs' body s'
  end.

(** ** get_movie_sequence_per_user *)

(** [sequences[user_id].append(x)] on a [defaultdict(list)]: a new key goes
    to the end of the dictionary with the one-element list. *)
Fixpoint dict_append (sequences : sequences_dict) (user_id : Z) (x : interaction)
  : sequences_dict :=
  match sequences with
  | [] => [(user_id, [x])]
  | (k, v) :: rest =>
      if decide (k = user_id) then (k, v ++ [x]) :: rest
      else (k, v) :: dict_append rest user_id x
  end.

(** [list.sort(key=...)] is the language's stable sort: elements with equal
    keys keep their order.  [insert_by_timestamp] puts [x], which comes
    before every element of the sorted tail, in front of the first element
    whose key is not smaller. *)
Fixpoint insert_by_timestamp (x : interaction) (l : list interaction)
  : list interaction :=
  match l with
  | [] => [x]
  | y :: l' =>
      if timestamp x <=? timestamp y then x :: y :: l'
      else y :: insert_by_timestamp x l'
  end.

Fixpoint sort_by_timestamp (l : list interaction) : list interaction :=
  match l with
  | [] => []
  | x :: l' => insert_by_timestamp x (sort_by_timestamp l')
  end.

Definition interaction_of_row (r : row) : interaction :=
  let '(user_id, movie_id, rating, timestamp) := r in
  {| movie_id := movie_id; timestamp := timestamp; rating := rating |}.

Definition row_user (r : row) : Z :=
  let '(user_id, movie_id, rating, timestamp) := r in user_id.

(** The rows of one user, as entries, in the order of the input. *)
Definition rows_of_user (ratings_df : list row) (user_id : Z) : list interaction :=
  interaction_of_row <$> filter (λ r, row_user r = user_id) ratings_df.

Definition get_movie_sequence_per_user (ratings_df : list row) : sequences_dict :=
  let sequences :=
    foldl (λ sequences r,
             let '(user_id, movie_id, rating, timestamp) := r in
             dict_append sequences user_id
               {| movie_id := movie_id; timestamp := timestamp; rating := rating |})
          [] ratings_df in
  (* Sort movie sequences by timestamp for every user. *)
  (λ kv, let '(user_id, context) := kv in
         (user_id, sort_by_timestamp context)) <$> sequences.

(** ** generate_examples_from_user_sequences *)

Definition pad_entry : interaction :=
  {| movie_id := 0; timestamp := 0; rating := 0 |}.

Section Builder.
Variable MAX_CONTEXT_LENGTH : Z.
Variable MIN_SEQUENCE_LENGTH : Z.

(** The padding loop
    [while len(context) < MAX_CONTEXT_LENGTH: context.append(pad)];
    every turn brings the length one closer to the window length. *)
Equations? padding (context : list interaction) : list interaction
  by wf (Z.to_nat (MAX_CONTEXT_LENGTH - py_len context)) lt :=
  padding context with Z_lt_dec (py_len context) MAX_CONTEXT_LENGTH => {
    | left _ := padding (context ++ [pad_entry]);
    | right _ := context }.
Proof. unfold py_len in *. rewrite length_app. simpl. lia. Qed.

Definition generate_examples_from_user_sequence
    (sequence : list interaction) : result (list example) :=
  for_each (py_range 1 (py_len sequence)) (λ label_idx examples,
    let start_idx := Z.max 0 (label_idx - MAX_CONTEXT_LENGTH) in
    let context := py_slice sequence start_idx label_idx in
    (* Padding *)
    let context := padding context in
    label ← py_getitem sequence label_idx;
    let label_movie_id := movie_id label in
    let context_movie_id := movie_id <$> context in
    Ok (examples ++ [ {| context_movie_id := context_movie_id;
                         label_movie_id := label_movie_id |} ])) [].

Definition generate_examples_from_user_sequences
    (sequences : sequences_dict) : result (list example) :=
  for_each (dict_values sequences) (λ sequence all_examples,
    if py_len sequence <? MIN_SEQUENCE_LENGTH then Ok all_examples
    else
      user_examples ← generate_examples_from_user_sequence sequence;
      Ok (all_examples ++ user_examples)) [].
End Builder.

(** The configured values. *)
Module Config.
Definition MAX_CONTEXT_LENGTH : Z := 10.
Definition MIN_SEQUENCE_LENGTH : Z := 3.
End Config.

(** The example the loop builds at split position [i], where [x] is the
    entry at that position: the [k] entries before position [i], [k] being
    the smaller of [i] and the window length, and then the padding ids. *)
Definition window_example (L : Z) (s : list interaction) (i : nat) (x : interaction)
  : example :=
  let k := (i `min` Z.to_nat L)%nat in
  {| context_movie_id :=
       (movie_id <$> take k (drop (i - k) s)) ++ replicate (Z.to_nat L - k) 0;
     label_movie_id := movie_id x |}.

(** One example for every position from 1 on. *)
Definition user_examples (L : Z) (s : list interaction) : list example :=
  imap (λ j x, window_example L s (S j) x) (drop 1 s).

(** What one user adds to the output. *)
Definition user_contribution (L M : Z) (s : list interaction) : list example :=
  if py_len s <? M then [] else user_examples L s.

(** Where the padding id 0 sits in a context: [left_padded] holds when
    the zeros are a prefix (no zero after a real id), [right_padded] when
    they are a suffix (no real id after a zero). *)
Definition no_padding (context : list Z) : bool :=
  forallb (λ id, negb (id =? 0)) context.

Definition only_padding (context : list Z) : bool :=
  forallb (λ id, id =? 0) context.

Fixpoint left_padded (context : list Z) : bool :=
  match context with
  | [] => true
  | id :: rest => if id =? 0 then left_padded rest else no_padding rest
  end.

Fixpoint right_padded (context : list Z) : bool :=
  match context with
  | [] => true
  | id :: rest => if id =? 0 then only_padding rest else right_padded rest
  end.

(** ** The same builder over a store of mutable objects

    Python lists and dictionaries are objects reached through references:
    [sequence[a:b]] allocates a new list object which shares its elements
    with [sequence], and [context.append] updates the object [context]
    refers to, in place.  The lists of examples being built hold only new
    values and stay in the loop state. *)
Module Heap.
Definition ref := positive.

Inductive object :=
| ORecord (m : interaction)              (* an interaction dictionary *)
| OList (items : list ref)               (* a list of interaction dictionaries *)
| OSequences (entries : list (Z * ref)). (* user id to list *)

Abbreviation heap := (gmap ref object).

(** A computation over the store which may raise. *)
Definition M (A : Type) : Type := heap → result (A * heap).

#[global] Instance M_ret : MRet M := λ A a h, Ok (a, h).
#[global] Instance M_bind : MBind M := λ A B f m h,
  match m h with
  | Ok (a, h') => f a h'
  | Raise e => Raise e
  end.

Definition raise {A} (e : exn) : M A := λ _, Raise e.

(** A computation which does not touch the store. *)
Definition lift {A} (c : result A) : M A := λ h,
  match c with
  | Ok a => Ok (a, h)
  | Raise e => Raise e
  end.

(** A new object, at a reference the store does not use yet. *)
Definition alloc (o : object) : M ref := λ h,
  let r := fresh (dom h) in Ok (r, <[r := o]> h).

Definition get_list (l : ref) : M (list ref) := λ h,
  match h !! l with
  | Some (OList items) => Ok (items, h)
  | _ => Raise TypeError
  end.

(** [len(l)] *)
Definition list_len (l : ref) : M Z :=
  items ← get_list l; mret (py_len items).

(** [l[start:stop]]: a new list object. *)
Definition list_slice (l : ref) (start stop : Z) : M ref :=
  items ← get_list l; alloc (OList (py_slice items start stop)).

(** [l.append(x)]: the object [l] refers to is updated in place. *)
Definition list_append (l x : ref) : M unit := λ h,
  match h !! l with
  | Some (OList items) => Ok ((), <[l := OList (items ++ [x])]> h)
  | _ => Raise TypeError
  end.

(** [l[i]] *)
Definition list_getitem (l : ref) (i : Z) : M ref :=
  items ← get_list l; lift (py_getitem items i).

(** [int(d["movie_id"])] *)
Definition record_movie_id (d : ref) : M Z := λ h,
  match h !! d with
  | Some (ORecord m) => Ok (movie_id m, h)
  | _ => Raise TypeError
  end.

(** [sequences.values()] *)
Definition sequences_values (d : ref) : M (list ref) := λ h,
  match h !! d with
  | Some (OSequences entries) => Ok (snd <$> entries, h)
  | _ => Raise TypeError
  end.

Fixpoint for_each {A S} (xs : list A) (body : A → S → M S) (s : S) : M S :=
  match xs with
  | [] => mret s
  | x :: xs' => s' ← body x s; for_each xs' body s'
  end.

Section Builder.
Variable MAX_CONTEXT_LENGTH : Z.
Variable MIN_SEQUENCE_LENGTH : Z.

(** The padding loop; [fuel] bounds the number of turns.  The loop appends
    at most [MAX_CONTEXT_LENGTH] entries and then tests its condition once
    more, which is the bound the caller passes. *)
Fixpoint padding (fuel : nat) (context : ref) : M unit :=
  match fuel with
  | O => raise LoopBound
  | S fuel' =>
      n ← list_len context;
      if n <? MAX_CONTEXT_LENGTH then
        pad ← alloc (ORecord {| movie_id := 0; timestamp := 0; rating := 0 |});
        _ ← list_append context pad;
        padding fuel' context
      else mret ()
  end.

Definition generate_examples_from_user_sequence (sequence : ref)
  : M (list example) :=
  n ← list_len sequence;
  for_each (py_range 1 n) (λ label_idx examples,
    let start_idx := Z.max 0 (label_idx - MAX_CONTEXT_LENGTH) in
    context ← list_slice sequence start_idx label_idx;
    (* Padding *)
    _ ← padding (S (Z.to_nat MAX_CONTEXT_LENGTH)) context;
    label ← list_getitem sequence label_idx;
    label_movie_id ← record_movie_id label;
    movies ← get_list context;
    context_movie_id ←
      for_each movies (λ movie ids,
        id ← record_movie_id movie; mret (ids ++ [id])) [];
    mret (examples ++ [ {| context_movie_id := context_movie_id;
                           label_movie_id := label_movie_id |} ])) [].

Definition generate_examples_from_user_sequences (sequences : ref)
  : M (list example) :=
  values ← sequences_values sequences;
  for_each values (λ sequence all_examples,
    n ← list_len sequence;
    if n <? MIN_SEQUENCE_LENGTH then mret all_examples
    else
      user_examples ← generate_examples_from_user_sequence sequence;
      mret (all_examples ++ user_examples)) [].
End Builder.

(** What the store holds at a reference, read back as values. *)
Definition read_record (h : heap) (r : ref) : option interaction :=
  match h !! r with
  | Some (ORecord m) => Some m
  | _ => None
  end.

Definition read_list (h : heap) (l : ref) : option (list interaction) :=
  match h !! l with
  | Some (OList items) => mapM (read_record h) items
  | _ => None
  end.

Definition read_sequences (h : heap) (d : ref) : option sequences_dict :=
  match h !! d with
  | Some (OSequences entries) =>
      mapM (λ kv : Z * ref, v ← read_list h kv.2; Some (kv.1, v)) entries
  | _ => None
  end.
End Heap.

(** ** compute_loss

    A rank-2 tensor is its shape and its entries.  The scalars are any type
    with the four operations; no law of arithmetic is assumed of them.  The
    embedding table of the candidate tower and the loss function are given
    from outside. *)
Section TwoTower.
Context {R W Loss : Type}.
Variables (zero one : R) (add mul : R → R → R).

Record tensor := Tensor {
  shape0 : nat;
  shape1 : nat;
  entry : nat → nat → R
}.

(** [keras.ops.eye(n, m)] *)
Definition eye (n m : nat) : tensor :=
  {| shape0 := n; shape1 := m;
     entry := λ i j, if decide (i = j) then one else zero |}.

(** [t.T] *)
Definition transpose (t : tensor) : tensor :=
  {| shape0 := shape1 t; shape1 := shape0 t; entry := λ i j, entry t j i |}.

(** The sum of the products [u 0 * v 0], ..., [u (n-1) * v (n-1)]. *)
Definition dot (n : nat) (u v : nat → R) : R :=
  foldl add zero ((λ k, mul (u k) (v k)) <$> seq 0 n).

(** [ops.matmul(a, b)]; the inner dimensions have to agree. *)
Definition matmul (a b : tensor) : result tensor :=
  if decide (shape1 a = shape0 b) then
    Ok {| shape0 := shape0 a; shape1 := shape1 b;
          entry := λ i j, dot (shape1 a) (entry a i) (λ k, entry b k j) |}
  else Raise ValueError.

(** The candidate tower: an embedding table of [embedding_dimension]
    columns, read at the given ids. *)
Variable embedding_dimension : nat.
Variable embeddings : Z → nat → R.

Definition candidate_model (ids : list Z) : tensor :=
  {| shape0 := length ids; shape1 := embedding_dimension;
     entry := λ i k, embeddings (nth i ids 0) k |}.

Variable loss_fn : tensor → tensor → W → Loss.

(** [y_pred] stands for [y_pred["query_embeddings"]]; the arguments [x] and
    [training] are not used by the method. *)

Definition compute_loss (y : list Z) (y_pred : tensor) (sample_weight : W)
  : result Loss :=
  let candidate_id := y in
  let query_embeddings := y_pred in
  let candidate_embeddings := candidate_model candidate_id in
  let num_queries := shape0 query_embeddings in
  let num_candidates := shape0 candidate_embeddings in
  (* One-hot vectors for labels. *)
  let labels := eye num_queries num_candidates in
  (* Compute the affinity score by multiplying the two embeddings. *)
  scores ← matmul query_embeddings (transpose candidate_embeddings);
  Ok (loss_fn labels scores sample_weight).
End TwoTower.

(** ** The train and test split

    [examples[:split_index]] and [examples[split_index:]]: a missing lower
    bound of a slice is 0, a missing upper bound is the length.  The split
    index is computed in floating point from the fraction of training data;
    it is taken as given here. *)
Definition train_test_split {A} (examples : list A) (split_index : Z)
  : list A * list A :=
  let train_examples := py_slice examples 0 split_index in
  let test_examples := py_slice examples split_index (py_len examples) in
  (train_examples, test_examples).

(** ** list_of_dicts_to_dict_of_lists

    A dictionary is the list of its items in insertion order, its keys
    without repetition. *)
Section DictOfLists.
Context {K V : Type} `{EqDecision K}.

(** The value stored under [key], when the key is in the dictionary. *)
Fixpoint items_get {X} (d : list (K * X)) (key : K) : option X :=
  match d with
  | [] => None
  | (k, v) :: rest => if decide (k = key) then Some v else items_get rest key
  end.

(** [dict_of_lists[key].append(value)] on a [defaultdict(list)]. *)
Fixpoint defaultdict_append (dict_of_lists : list (K * list V)) (key : K) (value : V)
  : list (K * list V) :=
  match dict_of_lists with
  | [] => [(key, [value])]
  | (k, v) :: rest =>
      if decide (k = key) then (k, v ++ [value]) :: rest
      else (k, v) :: defaultdict_append rest key value
  end.

Definition list_of_dicts_to_dict_of_lists (list_of_dicts : list (list (K * V)))
  : list (K * list V) :=
  foldl (λ dict_of_lists dictionary,
           foldl (λ dict_of_lists kv,
                    let '(key, value) := kv in
                    defaultdict_append dict_of_lists key value)
                 dict_of_lists dictionary)
        [] list_of_dicts.
End DictOfLists.

(** The value of a field of an example dictionary. *)
Inductive field_value :=
| FList (ids : list Z)
| FInt (id : Z).

(** An example as the dictionary the builder appends:
    [{"context_movie_id": _, "label_movie_id": _}]. *)
Definition example_items (e : example) : list (string * field_value) :=
  [("context_movie_id"%string, FList (context_movie_id e));
   ("label_movie_id"%string, FInt (label_movie_id e))].
(** * The sequence builder in closed form *)

Lemma padding_eq L context :
  padding L context
  = context ++ replicate (Z.to_nat (L - py_len context)) pad_entry.
Proof.
  revert context.
  apply (padding_elim L
           (λ context r,
              r = context ++ replicate (Z.to_nat (L - py_len context)) pad_entry)).
  - intros context Hlt IH _. rewrite IH, <- app_assoc. f_equal.
    unfold py_len in *. rewrite length_app. simpl.
    replace (Z.to_nat (L - Z.of_nat (length context)))
      with (S (Z.to_nat (L - Z.of_nat (length context + 1)))) by lia.
    reflexivity.
  - intros context Hge _.
    replace (Z.to_nat (L - py_len context)) with 0%nat by lia.
    simpl. by rewrite app_nil_r.
Qed.

Lemma py_slice_window {A} (s : list A) (i : nat) (L : Z) :
  (i < length s)%nat →
  py_slice s (Z.max 0 (Z.of_nat i - L)) (Z.of_nat i)
  = take (i `min` Z.to_nat L) (drop (i - i `min` Z.to_nat L) s).
Proof.
  intros Hi. unfold py_slice, slice_bound, py_len.
  destruct (Z.ltb_spec (Z.max 0 (Z.of_nat i - L)) 0); [lia|].
  destruct (Z.ltb_spec (Z.of_nat i) 0); [lia|].
  destruct (decide (L <= 0)) as [HL|HL].
  - replace (Z.to_nat L) with 0%nat by lia.
    rewrite Nat.min_0_r. simpl.
    replace (Z.to_nat _) with 0%nat by lia. reflexivity.
  - f_equal; [lia|]. f_equal. lia.
Qed.

Lemma py_getitem_lookup {A} (s : list A) (i : nat) x :
  s !! i = Some x → py_getitem s (Z.of_nat i) = Ok x.
Proof.
  intros H. unfold py_getitem.
  destruct (Z.ltb_spec (Z.of_nat i) 0); [lia|].
  destruct (Z.ltb_spec (Z.of_nat i) 0); [lia|].
  by rewrite Nat2Z.id, H.
Qed.

Lemma window_length {A} (s : list A) (i k : nat) :
  (i < length s)%nat → (k ≤ i)%nat → length (take k (drop (i - k) s)) = k.
Proof. intros. rewrite length_take, length_drop. lia. Qed.

Lemma generate_user_from L s rest j acc :
  drop (S j) s = rest →
  for_each (seqZ (Z.of_nat (S j)) (Z.of_nat (length rest)))
    (λ label_idx examples,
      let start_idx := Z.max 0 (label_idx - L) in
      let context := py_slice s start_idx label_idx in
      let context := padding L context in
      label ← py_getitem s label_idx;
      let label_movie_id := movie_id label in
      let context_movie_id := movie_id <$> context in
      Ok (examples ++ [ {| context_movie_id := context_movie_id;
                           label_movie_id := label_movie_id |} ])) acc
  = Ok (acc ++ imap (λ t x, window_example L s (S j + t) x) rest).
Proof.
  revert j acc. induction rest as [|x rest IH]; intros j acc Hdrop.
  - simpl. by rewrite app_nil_r.
  - assert (Hx : s !! S j = Some x).
    { rewrite <- (Nat.add_0_r (S j)), <- lookup_drop, Hdrop. reflexivity. }
    assert (Hlt : (S j < length s)%nat) by (by eapply lookup_lt_Some).
    rewrite seqZ_cons by (simpl; lia).
    cbn [for_each length]. cbv zeta.
    rewrite (py_getitem_lookup _ _ _ Hx).
    rewrite py_slice_window by done.
    rewrite padding_eq.
    cbn [mbind result_bind].
    replace (Z.succ (Z.of_nat (S j))) with (Z.of_nat (S (S j))) by lia.
    replace (Z.pred (Z.of_nat (S (length rest)))) with (Z.of_nat (length rest)) by lia.
    rewrite IH.
    2:{ replace (S (S j)) with (S j + 1)%nat by lia.
        by rewrite <- drop_drop, Hdrop. }
    f_equal. rewrite <- app_assoc. f_equal. rewrite imap_cons.
    change ([?b] ++ ?l') with (b :: l'). f_equal.
    + unfold window_example. rewrite Nat.add_0_r. f_equal.
      rewrite fmap_app, fmap_replicate. f_equal.
      change (movie_id pad_entry) with 0. f_equal.
      unfold py_len. rewrite (window_length s (S j)) by lia. lia.
    + apply imap_ext. intros t y _. unfold compose. f_equal. lia.
Qed.

Lemma generate_user_closed_form L s :
  generate_examples_from_user_sequence L s = Ok (user_examples L s).
Proof.
  unfold generate_examples_from_user_sequence, user_examples, py_range.
  destruct s as [|x0 s']; [reflexivity|].
  replace (py_len (x0 :: s') - 1) with (Z.of_nat (length (drop 1 (x0 :: s'))))
    by (unfold py_len; simpl; rewrite drop_0; lia).
  exact (generate_user_from L (x0 :: s') _ 0%nat [] eq_refl).
Qed.

Lemma for_each_users L M (values : list (list interaction)) acc :
  for_each values (λ sequence all_examples,
      if py_len sequence <? M then Ok all_examples
      else
        user_examples ← generate_examples_from_user_sequence L sequence;
        Ok (all_examples ++ user_examples)) acc
  = Ok (acc ++ mjoin (user_contribution L M <$> values)).
Proof.
  revert acc. induction values as [|s values IH]; intros acc; simpl.
  - by rewrite app_nil_r.
  - unfold user_contribution at 1.
    destruct (py_len s <? M); simpl.
    + apply IH.
    + rewrite generate_user_closed_form. simpl. rewrite IH.
      by rewrite <- app_assoc.
Qed.

Lemma generate_closed_form L M sequences :
  generate_examples_from_user_sequences L M sequences
  = Ok (mjoin (user_contribution L M <$> dict_values sequences)).
Proof. unfold generate_examples_from_user_sequences. by rewrite for_each_users. Qed.

Lemma length_user_examples L s :
  length (user_examples L s) = (length s - 1)%nat.
Proof. unfold user_examples. by rewrite length_imap, length_drop. Qed.

Lemma lookup_user_examples L s (i : nat) x :
  s !! S i = Some x → user_examples L s !! i = Some (window_example L s (S i) x).
Proof.
  intros H. unfold user_examples. rewrite list_lookup_imap.
  rewrite lookup_drop. simpl. by rewrite H.
Qed.

Lemma elem_of_user_examples L s e :
  e ∈ user_examples L s →
  ∃ (i : nat) x, s !! S i = Some x ∧ e = window_example L s (S i) x.
Proof.
  intros He. apply list_elem_of_lookup in He as [i Hi].
  unfold user_examples in Hi. rewrite list_lookup_imap, lookup_drop in Hi.
  simpl in Hi. destruct (s !! S i) as [x|] eqn:Hx; [|done].
  exists i, x. simpl in Hi. split; congruence.
Qed.

Lemma elem_of_generated L M sequences e :
  e ∈ mjoin (user_contribution L M <$> dict_values sequences) →
  ∃ s (i : nat) x,
    s ∈ dict_values sequences ∧ ¬ py_len s < M ∧
    s !! S i = Some x ∧ e = window_example L s (S i) x.
Proof.
  intros He. apply list_elem_of_join in He as (exs & He & Hexs).
  apply list_elem_of_fmap in Hexs as (s & -> & Hs).
  unfold user_contribution in He.
  destruct (Z.ltb_spec (py_len s) M); [by apply not_elem_of_nil in He|].
  apply elem_of_user_examples in He as (i & x & Hx & ->).
  exists s, i, x. repeat split; try done. lia.
Qed.

(** * The claims on the sequence builder *)

Lemma dict_values_app (before after : sequences_dict) :
  dict_values (before ++ after) = dict_values before ++ dict_values after.
Proof. unfold dict_values. apply fmap_app. Qed.

Lemma generate_split L M before user_id sequence after :
  generate_examples_from_user_sequences L M (before ++ (user_id, sequence) :: after)
  = Ok (mjoin (user_contribution L M <$> dict_values before)
        ++ user_contribution L M sequence
        ++ mjoin (user_contribution L M <$> dict_values after)).
Proof.
  rewrite generate_closed_form, dict_values_app, fmap_app, join_app.
  reflexivity.
Qed.

Lemma label_user_examples L s :
  label_movie_id <$> user_examples L s = movie_id <$> drop 1 s.
Proof.
  unfold user_examples. apply list_eq. intros i.
  rewrite !list_lookup_fmap, list_lookup_imap.
  by destruct (drop 1 s !! i).
Qed.

Lemma context_length_window L s (i : nat) x :
  (i < length s)%nat →
  length (context_movie_id (window_example L s i x)) = Z.to_nat L.
Proof.
  intros Hi. unfold window_example. cbn [context_movie_id].
  rewrite length_app, length_fmap, length_replicate, (window_length s i) by lia.
  lia.
Qed.

Lemma right_padded_app (real : list Z) (n : nat) :
  Forall (λ id, id ≠ 0) real → right_padded (real ++ replicate n 0) = true.
Proof.
  induction 1 as [|id real Hid _ IH]; simpl.
  - destruct n as [|n]; [done|]. simpl.
    unfold only_padding. apply forallb_forall. intros id Hin.
    apply list_elem_of_In, elem_of_replicate in Hin as [-> _]. done.
  - destruct (Z.eqb_spec id 0); [done|]. apply IH.
Qed.

(** C3: a user whose sequence has [n >= MIN_SEQUENCE_LENGTH] entries adds
    exactly [n - 1] examples to the output, one for every split position
    from 1 to [n - 1]: the labels of the user's examples are the movie ids
    at the positions 1, ..., [n - 1], in this order. *)
Theorem C3_example_count
    (before after : sequences_dict) (user_id : Z) (sequence : list interaction) :
  Config.MIN_SEQUENCE_LENGTH ≤ py_len sequence →
  ∃ ex_before ex_user ex_after,
    generate_examples_from_user_sequences
      Config.MAX_CONTEXT_LENGTH Config.MIN_SEQUENCE_LENGTH before = Ok ex_before ∧
    generate_examples_from_user_sequences
      Config.MAX_CONTEXT_LENGTH Config.MIN_SEQUENCE_LENGTH after = Ok ex_after ∧
    generate_examples_from_user_sequence
      Config.MAX_CONTEXT_LENGTH sequence = Ok ex_user ∧
    generate_examples_from_user_sequences
      Config.MAX_CONTEXT_LENGTH Config.MIN_SEQUENCE_LENGTH
      (before ++ (user_id, sequence) :: after)
    = Ok (ex_before ++ ex_user ++ ex_after) ∧
    py_len ex_user = py_len sequence - 1 ∧
    label_movie_id <$> ex_user = movie_id <$> drop 1 sequence.
Proof.
  intros Hn.
  exists (mjoin (user_contribution Config.MAX_CONTEXT_LENGTH
                   Config.MIN_SEQUENCE_LENGTH <$> dict_values before)),
    (user_examples Config.MAX_CONTEXT_LENGTH sequence),
    (mjoin (user_contribution Config.MAX_CONTEXT_LENGTH
              Config.MIN_SEQUENCE_LENGTH <$> dict_values after)).
  repeat split.
  - apply generate_closed_form.
  - apply generate_closed_form.
  - apply generate_user_closed_form.
  - rewrite generate_split. unfold user_contribution at 2.
    destruct (Z.ltb_spec (py_len sequence) Config.MIN_SEQUENCE_LENGTH); [lia|done].
  - unfold py_len in *. rewrite length_user_examples.
    unfold Config.MIN_SEQUENCE_LENGTH in Hn. lia.
  - apply label_user_examples.
Qed.

Lemma C3_example_count_witness :
  ∃ ex_user,
    generate_examples_from_user_sequences
      Config.MAX_CONTEXT_LENGTH Config.MIN_SEQUENCE_LENGTH
      ([(1, [Interaction 5 10 4])]
         ++ (2, [Interaction 11 100 5; Interaction 12 101 4; Interaction 13 102 3])
         :: [(3, [Interaction 6 1 2; Interaction 7 2 2; Interaction 8 3 2])])
    = Ok ([] ++ ex_user
          ++ [Example [6; 0; 0; 0; 0; 0; 0; 0; 0; 0] 7;
              Example [6; 7; 0; 0; 0; 0; 0; 0; 0; 0] 8]) ∧
    py_len ex_user = 2.
Proof.
  destruct (C3_example_count
              [(1, [Interaction 5 10 4])]
              [(3, [Interaction 6 1 2; Interaction 7 2 2; Interaction 8 3 2])]
              2 [Interaction 11 100 5; Interaction 12 101 4; Interaction 13 102 3])
    as (eb & eu & ea & Hb & Ha & _ & Hall & Hlen & _).
  - vm_compute. discriminate.
  - exists eu. split; [|exact Hlen].
    vm_compute in Hb, Ha. injection Hb as <-. injection Ha as <-. exact Hall.
Defined.

(** C6: a user whose sequence is shorter than [MIN_SEQUENCE_LENGTH] adds
    nothing: the output is the output without that user, and the user alone
    gives the empty output. *)
Theorem C6_short_sequence_skipped
    (L M : Z) (before after : sequences_dict) (user_id : Z)
    (sequence : list interaction) :
  py_len sequence < M →
  generate_examples_from_user_sequences L M (before ++ (user_id, sequence) :: after)
  = generate_examples_from_user_sequences L M (before ++ after)
  ∧ generate_examples_from_user_sequences L M [(user_id, sequence)] = Ok [].
Proof.
  intros Hn.
  assert (Hc : user_contribution L M sequence = []).
  { unfold user_contribution.
    by destruct (Z.ltb_spec (py_len sequence) M); [|lia]. }
  split.
  - rewrite generate_split, Hc, generate_closed_form.
    by rewrite dict_values_app, fmap_app, join_app.
  - rewrite generate_closed_form. simpl. by rewrite Hc.
Qed.

Lemma C6_short_sequence_skipped_witness :
  generate_examples_from_user_sequences 10 3
    ([(1, [Interaction 5 10 4; Interaction 6 11 4; Interaction 7 12 4])]
       ++ (2, [Interaction 11 100 5; Interaction 12 101 4]) :: [])
  = Ok [Example [5; 0; 0; 0; 0; 0; 0; 0; 0; 0] 6;
        Example [5; 6; 0; 0; 0; 0; 0; 0; 0; 0] 7].
Proof.
  rewrite (proj1 (C6_short_sequence_skipped 10 3
                    [(1, [Interaction 5 10 4; Interaction 6 11 4; Interaction 7 12 4])]
                    [] 2 [Interaction 11 100 5; Interaction 12 101 4]
                    ltac:(vm_compute; reflexivity))).
  vm_compute. reflexivity.
Defined.

(** C5: with the configured window length 10 and minimum sequence length 3,
    every generated example has a context of exactly 10 ids.  At every split
    position of a sequence the slice of history has at most 10 entries, and
    the padding loop appends to it as many sentinel entries (movie id 0,
    timestamp 0, rating 0) as are missing. *)
Theorem C5_context_length
    (sequences : sequences_dict) (sequence : list interaction) (label_idx : Z) :
  label_idx ∈ py_range 1 (py_len sequence) →
  (∃ examples,
     generate_examples_from_user_sequences
       Config.MAX_CONTEXT_LENGTH Config.MIN_SEQUENCE_LENGTH sequences
     = Ok examples ∧
     Forall (λ e, py_len (context_movie_id e) = Config.MAX_CONTEXT_LENGTH)
            examples)
  ∧ (let start_idx := Z.max 0 (label_idx - Config.MAX_CONTEXT_LENGTH) in
     let context := py_slice sequence start_idx label_idx in
     py_len context ≤ Config.MAX_CONTEXT_LENGTH ∧
     padding Config.MAX_CONTEXT_LENGTH context
     = context
       ++ replicate (Z.to_nat (Config.MAX_CONTEXT_LENGTH - py_len context))
            {| movie_id := 0; timestamp := 0; rating := 0 |} ∧
     py_len (padding Config.MAX_CONTEXT_LENGTH context)
     = Config.MAX_CONTEXT_LENGTH).
Proof.
  intros Hidx. split.
  - eexists. split; [apply generate_closed_form|].
    apply Forall_forall. intros e He.
    apply elem_of_generated in He as (s & i & x & _ & _ & Hx & ->).
    unfold py_len. rewrite context_length_window by (by eapply lookup_lt_Some).
    unfold Config.MAX_CONTEXT_LENGTH. lia.
  - intros start_idx context.
    apply elem_of_seqZ in Hidx.
    assert (Hlen : py_len context ≤ Config.MAX_CONTEXT_LENGTH).
    { subst context start_idx. unfold py_slice, slice_bound, py_len in *.
      rewrite length_take, length_drop. unfold Config.MAX_CONTEXT_LENGTH.
      repeat match goal with
             | |- context [?a <? ?b] => destruct (Z.ltb_spec a b)
             end; lia. }
    split; [exact Hlen|]. split; [apply padding_eq|].
    rewrite padding_eq. unfold py_len in *.
    rewrite length_app, length_replicate. lia.
Qed.

Lemma C5_context_length_witness :
  generate_examples_from_user_sequences
    Config.MAX_CONTEXT_LENGTH Config.MIN_SEQUENCE_LENGTH
    [(4, [Interaction 11 100 5; Interaction 12 101 4; Interaction 13 102 3])]
  = Ok [Example [11; 0; 0; 0; 0; 0; 0; 0; 0; 0] 12;
        Example [11; 12; 0; 0; 0; 0; 0; 0; 0; 0] 13]
  ∧ py_len (padding Config.MAX_CONTEXT_LENGTH
              (py_slice [Interaction 11 100 5; Interaction 12 101 4;
                         Interaction 13 102 3]
                 (Z.max 0 (2 - Config.MAX_CONTEXT_LENGTH)) 2))
    = Config.MAX_CONTEXT_LENGTH.
Proof.
  destruct (C5_context_length
              [(4, [Interaction 11 100 5; Interaction 12 101 4; Interaction 13 102 3])]
              [Interaction 11 100 5; Interaction 12 101 4; Interaction 13 102 3] 2)
    as [(examples & Hgen & _) (_ & _ & Hpad)].
  - vm_compute. right. left.
  - split; [|exact Hpad]. rewrite Hgen. vm_compute in Hgen. by rewrite <- Hgen.
Defined.

(** C4: the example at split position [i] has the label of the entry at
    position [i], and the real part of its context is the ids of the [k]
    entries just before position [i], in the order of the sequence, where
    [k] is the smaller of [i] and the window length; what follows the real
    part is padding. *)
Theorem C4_context_and_label
    (L : Z) (sequence : list interaction) (i : nat) (x : interaction) :
  (1 ≤ i)%nat →
  sequence !! i = Some x →
  ∃ examples e,
    generate_examples_from_user_sequence L sequence = Ok examples ∧
    examples !! (i - 1)%nat = Some e ∧
    label_movie_id e = movie_id x ∧
    let k := (i `min` Z.to_nat L)%nat in
    take k (context_movie_id e) = movie_id <$> take k (drop (i - k) sequence) ∧
    length (take k (drop (i - k) sequence)) = k ∧
    take k (drop (i - k) sequence)
    = py_slice sequence (Z.max 0 (Z.of_nat i - L)) (Z.of_nat i) ∧
    drop k (context_movie_id e) = replicate (Z.to_nat L - k) 0.
Proof.
  intros Hi Hx.
  assert (Hlt : (i < length sequence)%nat) by (by eapply lookup_lt_Some).
  destruct i as [|j]; [lia|].
  exists (user_examples L sequence), (window_example L sequence (S j) x).
  split; [apply generate_user_closed_form|].
  split; [replace (S j - 1)%nat with j by lia; by apply lookup_user_examples|].
  split; [done|]. intros k.
  assert (Hk : length (movie_id <$> take k (drop (S j - k) sequence)) = k).
  { rewrite length_fmap. apply window_length; lia. }
  unfold window_example. cbn [context_movie_id]. fold k.
  repeat split.
  - by rewrite take_app_length'.
  - apply window_length; lia.
  - by rewrite py_slice_window.
  - by rewrite drop_app_length'.
Qed.

Lemma C4_context_and_label_witness :
  ∃ examples e,
    generate_examples_from_user_sequence 2
      [Interaction 11 100 5; Interaction 12 101 4; Interaction 13 102 3;
       Interaction 14 103 3] = Ok examples ∧
    examples !! 2%nat = Some e ∧
    label_movie_id e = 14 ∧
    take 2 (context_movie_id e) = [12; 13].
Proof.
  destruct (C4_context_and_label 2
              [Interaction 11 100 5; Interaction 12 101 4; Interaction 13 102 3;
               Interaction 14 103 3] 3 (Interaction 14 103 3))
    as (examples & e & Hgen & He & Hlabel & Hreal & _).
  - lia.
  - reflexivity.
  - exists examples, e. repeat split; assumption.
Defined.

(** C9: with a window length of 0 or a minimum sequence length below 1 the
    builder checks nothing and raises nothing: it returns a list of
    examples.  With window length 0 every context is empty; with a minimum
    below 1 no sequence is skipped, the output is the examples of every
    user's sequence, one after the other. *)
Theorem C9_no_validation (L M : Z) (sequences : sequences_dict) :
  L = 0 ∨ M < 1 →
  ∃ examples,
    generate_examples_from_user_sequences L M sequences = Ok examples ∧
    (L = 0 → Forall (λ e, context_movie_id e = []) examples) ∧
    (M < 1 →
     ∃ per_user,
       Forall2 (λ sequence user_examples,
                  generate_examples_from_user_sequence L sequence
                  = Ok user_examples)
               (dict_values sequences) per_user ∧
       examples = mjoin per_user).
Proof.
  intros _. eexists. split; [apply generate_closed_form|]. split.
  - intros ->. apply Forall_forall. intros e He.
    apply elem_of_generated in He as (s & i & x & _ & _ & _ & ->).
    reflexivity.
  - intros HM. exists (user_examples L <$> dict_values sequences). split.
    + apply Forall2_fmap_r, Forall_Forall2_diag, Forall_forall.
      intros s _. apply generate_user_closed_form.
    + f_equal. apply list_fmap_ext. intros _ s _.
      unfold user_contribution. unfold py_len.
      by destruct (Z.ltb_spec (Z.of_nat (length s)) M); [lia|].
Qed.

Lemma C9_no_validation_witness :
  generate_examples_from_user_sequences 0 0
    [(1, []); (2, [Interaction 11 100 5]);
     (3, [Interaction 21 7 1; Interaction 22 8 1; Interaction 23 9 1])]
  = Ok [Example [] 22; Example [] 23].
Proof.
  destruct (C9_no_validation 0 0
              [(1, []); (2, [Interaction 11 100 5]);
               (3, [Interaction 21 7 1; Interaction 22 8 1; Interaction 23 9 1])])
    as (examples & Hgen & _).
  - left. reflexivity.
  - rewrite Hgen. vm_compute in Hgen. exact (eq_sym Hgen).
Defined.

(** C1, as stated, fails: for one user with the items 11, 12, 13, 14 at
    increasing timestamps, window length 3 and minimum sequence length 3,
    the builder returns the contexts [11,0,0], [11,12,0] and [11,12,13].
    The padding follows the real items, it does not precede them. *)
Lemma C1_counterexample :
  generate_examples_from_user_sequences 3 3
    (get_movie_sequence_per_user
       [(7, 11, 5, 100); (7, 12, 4, 200); (7, 13, 3, 300); (7, 14, 5, 400)])
  = Ok [Example [11; 0; 0] 12; Example [11; 12; 0] 13; Example [11; 12; 13] 14]
  ∧ generate_examples_from_user_sequences 3 3
      (get_movie_sequence_per_user
         [(7, 11, 5, 100); (7, 12, 4, 200); (7, 13, 3, 300); (7, 14, 5, 400)])
    ≠ Ok [Example [0; 0; 11] 12; Example [0; 11; 12] 13; Example [11; 12; 13] 14]
  ∧ left_padded [11; 0; 0] = false.
Proof.
  split; [vm_compute; reflexivity|].
  split; [vm_compute; discriminate|reflexivity].
Qed.

(** C1, amended: the padding ids of every generated context are a suffix of
    it.  The context is the ids of a slice of the user's sequence followed
    by zeros only, so when no real item has id 0, no real id follows a
    zero.  For one user with the items A, B, C, D at increasing timestamps,
    window length 3 and minimum sequence length 3, the three examples are
    ([A,0,0],B), ([A,B,0],C) and ([A,B,C],D). *)
Theorem C1_right_padding
    (L M : Z) (sequences : sequences_dict)
    (U A B C D ra rb rc rd ta tb tc td : Z) :
  Forall (Forall (λ x, movie_id x ≠ 0)) (dict_values sequences) →
  ta < tb → tb < tc → tc < td →
  (∃ examples,
     generate_examples_from_user_sequences L M sequences = Ok examples ∧
     Forall (λ e,
               right_padded (context_movie_id e) = true ∧
               ∃ sequence (lo k : nat),
                 sequence ∈ dict_values sequences ∧
                 context_movie_id e
                 = (movie_id <$> take k (drop lo sequence))
                   ++ replicate (Z.to_nat L - k) 0)
            examples)
  ∧ generate_examples_from_user_sequences 3 3
      (get_movie_sequence_per_user
         [(U, A, ra, ta); (U, B, rb, tb); (U, C, rc, tc); (U, D, rd, td)])
    = Ok [Example [A; 0; 0] B; Example [A; B; 0] C; Example [A; B; C] D].
Proof.
  intros Hreal Hab Hbc Hcd. split.
  - eexists. split; [apply generate_closed_form|].
    apply Forall_forall. intros e He.
    apply elem_of_generated in He as (s & i & x & Hs & _ & _ & ->).
    split.
    + unfold window_example. cbn [context_movie_id].
      apply right_padded_app, Forall_fmap.
      rewrite Forall_forall in Hreal. specialize (Hreal s Hs).
      apply Forall_forall. intros y Hy. cbn.
      rewrite Forall_forall in Hreal. apply Hreal.
      by eapply subseteq_drop, subseteq_take.
    + eexists s, _, _. split; [exact Hs|]. reflexivity.
  - unfold get_movie_sequence_per_user.
    repeat (cbn [foldl dict_append app]; rewrite decide_True by reflexivity).
    cbn [app fmap list_fmap sort_by_timestamp insert_by_timestamp timestamp].
    assert (Hcd' : (tc <=? td) = true) by (apply Z.leb_le; lia).
    assert (Hbc' : (tb <=? tc) = true) by (apply Z.leb_le; lia).
    assert (Hab' : (ta <=? tb) = true) by (apply Z.leb_le; lia).
    rewrite Hcd'. cbn [insert_by_timestamp timestamp]. rewrite Hbc'.
    cbn [insert_by_timestamp timestamp]. rewrite Hab'.
    rewrite generate_closed_form. reflexivity.
Qed.

Lemma C1_right_padding_witness :
  generate_examples_from_user_sequences 3 3
    (get_movie_sequence_per_user
       [(7, 11, 5, 100); (7, 12, 4, 200); (7, 13, 3, 300); (7, 14, 5, 400)])
  = Ok [Example [11; 0; 0] 12; Example [11; 12; 0] 13; Example [11; 12; 13] 14]
  ∧ ∃ examples,
      generate_examples_from_user_sequences 2 1
        [(1, [Interaction 5 10 4; Interaction 6 11 4])]
      = Ok examples ∧
      Forall (λ e, right_padded (context_movie_id e) = true) examples.
Proof.
  destruct (C1_right_padding 2 1 [(1, [Interaction 5 10 4; Interaction 6 11 4])]
              7 11 12 13 14 5 4 3 5 100 200 300 400)
    as [(examples & Hgen & Hall) Hscenario].
  - vm_compute. repeat constructor; discriminate.
  - lia.
  - lia.
  - lia.
  - split; [exact Hscenario|]. exists examples. split; [exact Hgen|].
    eapply Forall_impl; [exact Hall|]. intros e [He _]. exact He.
Defined.

(** * get_movie_sequence_per_user: grouping and the stable sort *)

Section InsertionSort.
Implicit Types (x y : interaction) (l : list interaction).

Lemma insert_by_timestamp_perm x l : insert_by_timestamp x l ≡ₚ x :: l.
Proof.
  induction l as [|y l IH]; simpl; [done|].
  destruct (timestamp x <=? timestamp y); [done|].
  rewrite IH. apply Permutation_swap.
Qed.

Lemma sort_by_timestamp_perm l : sort_by_timestamp l ≡ₚ l.
Proof.
  induction l as [|x l IH]; simpl; [done|].
  by rewrite insert_by_timestamp_perm, IH.
Qed.

Lemma insert_by_timestamp_sorted x l :
  StronglySorted (λ a b, timestamp a ≤ timestamp b) l →
  StronglySorted (λ a b, timestamp a ≤ timestamp b) (insert_by_timestamp x l).
Proof.
  induction 1 as [|y l Hl IH Hy]; simpl.
  - repeat constructor.
  - destruct (Z.leb_spec (timestamp x) (timestamp y)) as [Hxy|Hxy].
    + constructor; [by constructor|]. constructor; [done|].
      eapply Forall_impl; [exact Hy|]. intros z Hz. simpl in *. lia.
    + constructor; [done|].
      rewrite insert_by_timestamp_perm. constructor; [lia|done].
Qed.

Lemma sort_by_timestamp_sorted l :
  StronglySorted (λ a b, timestamp a ≤ timestamp b) (sort_by_timestamp l).
Proof.
  induction l as [|x l IH]; simpl; [constructor|].
  by apply insert_by_timestamp_sorted.
Qed.

(** Entries with the same timestamp keep their order. *)
Lemma insert_by_timestamp_stable t x l :
  filter (λ a, timestamp a = t) (insert_by_timestamp x l)
  = filter (λ a, timestamp a = t) (x :: l).
Proof.
  induction l as [|y l IH]; simpl; [done|].
  destruct (Z.leb_spec (timestamp x) (timestamp y)) as [Hxy|Hxy]; [done|].
  rewrite (filter_cons _ y), IH, !filter_cons.
  repeat case_decide; try done; lia.
Qed.

Lemma sort_by_timestamp_stable t l :
  filter (λ a, timestamp a = t) (sort_by_timestamp l)
  = filter (λ a, timestamp a = t) l.
Proof.
  induction l as [|x l IH]; simpl; [done|].
  by rewrite insert_by_timestamp_stable, !filter_cons, IH.
Qed.
End InsertionSort.


Lemma dict_get_append (sequences : sequences_dict) k x user_id :
  dict_get (dict_append sequences k x) user_id
  = if decide (k = user_id) then Some (default [] (dict_get sequences user_id) ++ [x])
    else dict_get sequences user_id.
Proof.
  induction sequences as [|[k' v] rest IH]; simpl.
  - destruct (decide (k = user_id)); done.
  - destruct (decide (k' = k)) as [->|Hne]; simpl.
    + destruct (decide (k = user_id)); done.
    + rewrite IH.
      destruct (decide (k' = user_id)), (decide (k = user_id)); congruence.
Qed.

Lemma dict_keys_append (sequences : sequences_dict) k x :
  (dict_append sequences k x).*1
  = if decide (k ∈ sequences.*1) then sequences.*1 else sequences.*1 ++ [k].
Proof.
  induction sequences as [|[k' v] rest IH].
  - rewrite decide_False; [done|apply not_elem_of_nil].
  - cbn [dict_append]. destruct (decide (k' = k)) as [->|Hne].
    + rewrite !fmap_cons. cbn [fst]. rewrite decide_True; [done|left].
    + rewrite !fmap_cons, IH. cbn [fst].
      destruct (decide (k ∈ rest.*1)) as [Hin|Hnin].
      * rewrite decide_True; [done|by right].
      * rewrite decide_False; [done|].
        intros [?|?]%elem_of_cons; congruence.
Qed.

Lemma dict_append_NoDup (sequences : sequences_dict) k x :
  NoDup sequences.*1 → NoDup (dict_append sequences k x).*1.
Proof.
  intros Hnd. rewrite dict_keys_append. case_decide as Hin; [done|].
  apply NoDup_app. repeat split; [done| |apply NoDup_singleton].
  intros y Hy ->%list_elem_of_singleton. done.
Qed.

Lemma rows_of_user_cons u m r t (rows : list row) user_id :
  rows_of_user ((u, m, r, t) :: rows) user_id
  = if decide (u = user_id)
    then {| movie_id := m; timestamp := t; rating := r |} :: rows_of_user rows user_id
    else rows_of_user rows user_id.
Proof.
  unfold rows_of_user. rewrite filter_cons. cbn [row_user].
  by destruct (decide (u = user_id)).
Qed.

(** The loop over the rows: every row goes to the end of its user's list. *)
Lemma dict_get_rows (ratings_df : list row) (sequences : sequences_dict) user_id :
  dict_get
    (foldl (λ sequences r,
              let '(user_id, movie_id, rating, timestamp) := r in
              dict_append sequences user_id
                {| movie_id := movie_id; timestamp := timestamp; rating := rating |})
           sequences ratings_df) user_id
  = match rows_of_user ratings_df user_id with
    | [] => dict_get sequences user_id
    | group => Some (default [] (dict_get sequences user_id) ++ group)
    end.
Proof.
  revert sequences.
  induction ratings_df as [|[[[u m] r] t] rows IH]; intros sequences; [done|].
  cbn [foldl]. rewrite IH, dict_get_append, rows_of_user_cons.
  destruct (decide (u = user_id)) as [->|Hne]; [|done].
  destruct (rows_of_user rows user_id) as [|y group]; [done|].
  cbn [default from_option id]. by rewrite <- app_assoc.
Qed.

Lemma dict_keys_rows (ratings_df : list row) (sequences : sequences_dict) :
  NoDup sequences.*1 →
  NoDup (foldl (λ sequences r,
                  let '(user_id, movie_id, rating, timestamp) := r in
                  dict_append sequences user_id
                    {| movie_id := movie_id; timestamp := timestamp;
                       rating := rating |})
               sequences ratings_df).*1.
Proof.
  revert sequences.
  induction ratings_df as [|[[[u m] r] t] rows IH]; intros sequences Hnd; [done|].
  cbn [foldl]. by apply IH, dict_append_NoDup.
Qed.

Lemma dict_get_sorted (sequences : sequences_dict) user_id :
  dict_get ((λ kv, let '(user_id, context) := kv in
                   (user_id, sort_by_timestamp context)) <$> sequences) user_id
  = sort_by_timestamp <$> dict_get sequences user_id.
Proof.
  induction sequences as [|[k v] rest IH]; simpl; [done|].
  case_decide; done.
Qed.

(** C8: the result has one group for every user who has a row, and no
    other; a user's group holds that user's rows, ascending by timestamp,
    and the entries with the same timestamp are in the order of the rows. *)
Theorem C8_grouped_and_sorted (ratings_df : list row) (user_id : Z) :
  NoDup (get_movie_sequence_per_user ratings_df).*1
  ∧ match dict_get (get_movie_sequence_per_user ratings_df) user_id with
    | None => rows_of_user ratings_df user_id = []
    | Some sequence =>
        rows_of_user ratings_df user_id ≠ [] ∧
        sequence ≡ₚ rows_of_user ratings_df user_id ∧
        StronglySorted (λ x y, timestamp x ≤ timestamp y) sequence ∧
        ∀ t, filter (λ x, timestamp x = t) sequence
             = filter (λ x, timestamp x = t) (rows_of_user ratings_df user_id)
    end.
Proof.
  unfold get_movie_sequence_per_user. split.
  - rewrite <- list_fmap_compose.
    erewrite list_fmap_ext; [apply dict_keys_rows; constructor|].
    by intros _ [??] _.
  - rewrite dict_get_sorted, dict_get_rows. cbn [dict_get default app].
    destruct (rows_of_user ratings_df user_id) as [|y group] eqn:Hg; [done|].
    cbn [fmap option_fmap option_map]. repeat split.
    + done.
    + apply sort_by_timestamp_perm.
    + apply sort_by_timestamp_sorted.
    + intros t. apply sort_by_timestamp_stable.
Qed.

(** * compute_loss: scores and labels of a batch *)

(** C2: for a batch of [N] examples, the scores given to the loss are the
    product of the [N] query embeddings with the transpose of the [N]
    candidate embeddings: an [N] by [N] tensor whose entry [(i, j)] is the
    dot product of query [i] with the embedding of the label id of example
    [j].  The labels given to the loss are the [N] by [N] identity. *)
Theorem C2_in_batch_scores {R W Loss : Type}
    (zero one : R) (add mul : R → R → R)
    (embedding_dimension : nat) (embeddings : Z → nat → R)
    (loss_fn : tensor → tensor → W → Loss)
    (y : list Z) (query_embeddings : tensor) (sample_weight : W) (N : nat) :
  length y = N →
  shape0 query_embeddings = N →
  shape1 query_embeddings = embedding_dimension →
  ∃ scores,
    matmul zero add mul query_embeddings
      (transpose (candidate_model embedding_dimension embeddings y)) = Ok scores ∧
    compute_loss zero one add mul embedding_dimension embeddings loss_fn
      y query_embeddings sample_weight
    = Ok (loss_fn (eye zero one N N) scores sample_weight) ∧
    shape0 (eye zero one N N) = N ∧ shape1 (eye zero one N N) = N ∧
    (∀ i j : nat,
       entry (eye zero one N N) i j = if decide (i = j) then one else zero) ∧
    shape0 scores = N ∧ shape1 scores = N ∧
    (∀ (i j : nat) (id : Z),
       y !! j = Some id →
       entry scores i j
       = dot zero add mul embedding_dimension
           (entry query_embeddings i) (embeddings id)).
Proof.
  intros Hy Hq0 Hq1.
  unfold compute_loss, matmul.
  cbn [transpose candidate_model shape0 shape1 entry].
  rewrite decide_True by exact Hq1.
  eexists. split; [reflexivity|].
  cbn [mbind result_bind]. rewrite Hq0, Hy, Hq1.
  repeat split.
  intros i j id Hj. cbn [entry].
  by rewrite (nth_lookup_Some _ _ _ _ Hj).
Qed.

Lemma C2_in_batch_scores_witness :
  compute_loss 0 1 Z.add Z.mul 2 (λ id k, id * 10 + Z.of_nat k)
    (λ labels scores (_ : unit),
       ((λ p, entry labels p.1 p.2) <$> [(0, 0); (0, 1); (1, 0); (1, 1)]%nat,
        (λ p, entry scores p.1 p.2) <$> [(0, 0); (0, 1); (1, 0); (1, 1)]%nat))
    [3; 4] (Tensor 2 2 (λ i j, Z.of_nat (i + 2 * j))) ()
  = Ok ([1; 0; 0; 1], [62; 82; 123; 163]).
Proof.
  destruct (C2_in_batch_scores 0 1 Z.add Z.mul 2 (λ id k, id * 10 + Z.of_nat k)
              (λ labels scores (_ : unit),
                 ((λ p, entry labels p.1 p.2)
                    <$> [(0, 0); (0, 1); (1, 0); (1, 1)]%nat,
                  (λ p, entry scores p.1 p.2)
                    <$> [(0, 0); (0, 1); (1, 0); (1, 1)]%nat))
              [3; 4] (Tensor 2 2 (λ i j, Z.of_nat (i + 2 * j))) () 2)
    as (scores & Hscores & Hloss & _).
  - reflexivity.
  - reflexivity.
  - reflexivity.
  - rewrite Hloss. injection Hscores as <-. vm_compute. reflexivity.
Defined.

(** * The builder over the store: what it returns and what it leaves alone *)

Section HeapFacts.
Implicit Types (h : gmap Heap.ref Heap.object) (r l c d : Heap.ref).

Lemma bind_ok {A B} (m : Heap.M A) (f : A → Heap.M B) h a h1 :
  m h = Ok (a, h1) → (m ≫= f) h = f a h1.
Proof. intros H. unfold mbind, Heap.M_bind. by rewrite H. Qed.

Lemma get_list_ok h l items :
  h !! l = Some (Heap.OList items) → Heap.get_list l h = Ok (items, h).
Proof. intros H. unfold Heap.get_list. by rewrite H. Qed.

Lemma list_len_ok h l items :
  h !! l = Some (Heap.OList items) → Heap.list_len l h = Ok (py_len items, h).
Proof.
  intros H. unfold Heap.list_len.
  by rewrite (bind_ok _ _ _ _ _ (get_list_ok _ _ _ H)).
Qed.

Lemma alloc_ok h o :
  ∃ r, Heap.alloc o h = Ok (r, <[r := o]> h) ∧ h !! r = None.
Proof.
  exists (fresh (dom h)). split; [done|].
  apply not_elem_of_dom, is_fresh.
Qed.

Lemma read_record_Some h r m :
  Heap.read_record h r = Some m ↔ h !! r = Some (Heap.ORecord m).
Proof.
  unfold Heap.read_record. destruct (h !! r) as [[]|]; naive_solver.
Qed.

Lemma read_list_Some h l s :
  Heap.read_list h l = Some s ↔
  ∃ items, h !! l = Some (Heap.OList items) ∧
           Forall2 (λ r x, h !! r = Some (Heap.ORecord x)) items s.
Proof.
  unfold Heap.read_list. split.
  - destruct (h !! l) as [[| items |]|]; try done.
    intros H%mapM_Some. exists items. split; [done|].
    eapply Forall2_impl; [exact H|]. intros r x. apply read_record_Some.
  - intros (items & -> & H). apply mapM_Some.
    eapply Forall2_impl; [exact H|]. intros r x. apply read_record_Some.
Qed.

Lemma read_sequences_Some h d sequences :
  Heap.read_sequences h d = Some sequences ↔
  ∃ entries, h !! d = Some (Heap.OSequences entries) ∧
             Forall2 (λ (kv : Z * Heap.ref) (kv' : Z * list interaction),
                        kv.1 = kv'.1 ∧ Heap.read_list h kv.2 = Some kv'.2)
                     entries sequences.
Proof.
  unfold Heap.read_sequences. split.
  - destruct (h !! d) as [[| | entries]|]; try done.
    intros H%mapM_Some. exists entries. split; [done|].
    eapply Forall2_impl; [exact H|]. intros [k r] [k' s]. simpl.
    destruct (Heap.read_list h r); simpl; naive_solver.
  - intros (entries & -> & H). apply mapM_Some.
    eapply Forall2_impl; [exact H|]. intros [k r] [k' s] [-> Hs].
    simpl in *. by rewrite Hs.
Qed.

Lemma read_list_mono h h' l s :
  h ⊆ h' → Heap.read_list h l = Some s → Heap.read_list h' l = Some s.
Proof.
  intros Hsub (items & Hl & Hitems)%read_list_Some. apply read_list_Some.
  exists items. split; [by eapply lookup_weaken|].
  eapply Forall2_impl; [exact Hitems|].
  intros r x Hr. cbn beta in *. by eapply lookup_weaken.
Qed.

Lemma read_sequences_mono h h' d sequences :
  h ⊆ h' →
  Heap.read_sequences h d = Some sequences →
  Heap.read_sequences h' d = Some sequences.
Proof.
  intros Hsub (entries & Hd & Hentries)%read_sequences_Some.
  apply read_sequences_Some. exists entries. split; [by eapply lookup_weaken|].
  eapply Forall2_impl; [exact Hentries|].
  intros kv kv' [? ?]. split; [done|by eapply read_list_mono].
Qed.

Lemma py_slice_Forall2 {A B} (P : A → B → Prop) items s lo hi :
  Forall2 P items s → Forall2 P (py_slice items lo hi) (py_slice s lo hi).
Proof.
  intros H. unfold py_slice, py_len.
  rewrite (Forall2_length _ _ _ H).
  by apply Forall2_take, Forall2_drop.
Qed.

Lemma py_getitem_Forall2 {A B} (P : A → B → Prop) items s i x :
  Forall2 P items s → py_getitem s i = Ok x →
  ∃ a, py_getitem items i = Ok a ∧ P a x.
Proof.
  intros H. unfold py_getitem, py_len. rewrite (Forall2_length _ _ _ H).
  destruct (_ <? 0); [done|].
  destruct (s !! _) as [x'|] eqn:Hx; [|done]. intros [= ->].
  destruct (Forall2_lookup_r _ _ _ _ _ H Hx) as (a & -> & Ha). eauto.
Qed.

(** The padding loop changes the object [c] and new objects only, and
    leaves in [c] what the loop over values computes. *)
Lemma heap_padding_ok L (fuel : nat) h c items s :
  h !! c = Some (Heap.OList items) →
  Forall2 (λ r x, h !! r = Some (Heap.ORecord x)) items s →
  (Z.to_nat (L - py_len s) < fuel)%nat →
  ∃ h',
    Heap.padding L fuel c h = Ok ((), h') ∧
    (∀ r o, r ≠ c → h !! r = Some o → h' !! r = Some o) ∧
    Heap.read_list h' c = Some (padding L s).
Proof.
  revert h items s.
  induction fuel as [|fuel IH]; intros h items s Hc Hitems Hfuel; [lia|].
  assert (Hlen : py_len items = py_len s).
  { unfold py_len. by rewrite (Forall2_length _ _ _ Hitems). }
  cbn [Heap.padding].
  rewrite (bind_ok _ _ _ _ _ (list_len_ok _ _ _ Hc)), Hlen.
  rewrite padding_equation_1.
  destruct (Z.ltb_spec (py_len s) L) as [Hlt|Hge];
    destruct (Z_lt_dec (py_len s) L) as [Hlt'|Hge']; try lia.
  - rewrite padding_clause_1_equation_1.
    destruct (alloc_ok h (Heap.ORecord (Interaction 0 0 0))) as (p & Hp & Hfresh).
    rewrite (bind_ok _ _ _ _ _ Hp).
    assert (Hpc : p ≠ c) by congruence.
    assert (Happend :
      Heap.list_append c p (<[p := Heap.ORecord (Interaction 0 0 0)]> h)
      = Ok ((), <[c := Heap.OList (items ++ [p])]>
                  (<[p := Heap.ORecord (Interaction 0 0 0)]> h))).
    { unfold Heap.list_append. by rewrite lookup_insert_ne, Hc. }
    rewrite (bind_ok _ _ _ _ _ Happend).
    destruct (IH (<[c := Heap.OList (items ++ [p])]>
                    (<[p := Heap.ORecord (Interaction 0 0 0)]> h))
                (items ++ [p]) (s ++ [pad_entry]))
      as (h' & Hrun & Hframe & Hread).
    + apply lookup_insert_eq.
    + apply Forall2_app.
      * eapply Forall2_impl; [exact Hitems|]. intros r x Hr. cbn beta in *.
        rewrite !lookup_insert_ne; [done|congruence|congruence].
      * repeat constructor.
        rewrite lookup_insert_ne by done. apply lookup_insert_eq.
    + unfold py_len in *. rewrite length_app. simpl. lia.
    + exists h'. split; [exact Hrun|]. split; [|exact Hread].
      intros r o Hr Ho. apply Hframe; [done|].
      rewrite !lookup_insert_ne; [done|congruence|done].
  - exists h. split; [done|]. split; [done|].
    apply read_list_Some. eauto.
Qed.

(** [[int(movie["movie_id"]) for movie in context]] *)
Lemma heap_movie_ids_ok h movies s acc :
  Forall2 (λ r x, h !! r = Some (Heap.ORecord x)) movies s →
  Heap.for_each movies
    (λ movie ids, id ← Heap.record_movie_id movie; mret (ids ++ [id])) acc h
  = Ok (acc ++ (movie_id <$> s), h).
Proof.
  intros H. revert acc.
  induction H as [|r x movies s Hr _ IH]; intros acc.
  - cbn. by rewrite app_nil_r.
  - cbn [Heap.for_each].
    assert (Hid : Heap.record_movie_id r h = Ok (movie_id x, h)).
    { unfold Heap.record_movie_id. by rewrite Hr. }
    unfold mbind at 1, Heap.M_bind at 1.
    rewrite (bind_ok _ _ _ _ _ Hid). cbn [mret Heap.M_ret].
    rewrite IH. by rewrite <- app_assoc.
Qed.

(** A loop over the store against the same loop over values: when every
    turn of the body agrees and only extends the store, so does the loop. *)
Lemma heap_for_each_ok {A B S} (R : A → B → Prop)
    (body : A → S → Heap.M S) (pbody : B → S → result S) xs ys :
  Forall2 R xs ys →
  ∀ h0,
  (∀ x y acc h, R x y → h0 ⊆ h →
     ∃ acc' h', pbody y acc = Ok acc' ∧ body x acc h = Ok (acc', h') ∧ h ⊆ h') →
  ∀ acc h, h0 ⊆ h →
    ∃ acc' h',
      for_each ys pbody acc = Ok acc' ∧
      Heap.for_each xs body acc h = Ok (acc', h') ∧ h ⊆ h'.
Proof.
  intros HR h0 Hbody.
  induction HR as [|x y xs ys Hxy _ IH]; intros acc h Hh.
  - exists acc, h. done.
  - destruct (Hbody x y acc h Hxy Hh) as (acc1 & h1 & Hp & Hb & Hsub).
    destruct (IH acc1 h1) as (acc2 & h2 & Hp2 & Hb2 & Hsub2);
      [by etrans|].
    exists acc2, h2. cbn [for_each Heap.for_each].
    rewrite Hp, (bind_ok _ _ _ _ _ Hb). cbn [mbind result_bind].
    repeat split; [done|done|by etrans].
Qed.

(** One turn of the loop over the split positions. *)
Lemma heap_example_ok L h sequence s label_idx examples :
  Heap.read_list h sequence = Some s →
  label_idx ∈ py_range 1 (py_len s) →
  ∃ examples' h',
    (let start_idx := Z.max 0 (label_idx - L) in
     let context := py_slice s start_idx label_idx in
     let context := padding L context in
     label ← py_getitem s label_idx;
     let label_movie_id := movie_id label in
     let context_movie_id := movie_id <$> context in
     Ok (examples ++ [ {| context_movie_id := context_movie_id;
                          label_movie_id := label_movie_id |} ]))
    = Ok examples' ∧
    (let start_idx := Z.max 0 (label_idx - L) in
     context ← Heap.list_slice sequence start_idx label_idx;
     _ ← Heap.padding L (S (Z.to_nat L)) context;
     label ← Heap.list_getitem sequence label_idx;
     label_movie_id ← Heap.record_movie_id label;
     movies ← Heap.get_list context;
     context_movie_id ←
       Heap.for_each movies (λ movie ids,
         id ← Heap.record_movie_id movie; mret (ids ++ [id])) [];
     mret (examples ++ [ {| context_movie_id := context_movie_id;
                            label_movie_id := label_movie_id |} ])) h
    = Ok (examples', h') ∧
    h ⊆ h'.
Proof.
  intros (items & Hseq & Hitems)%read_list_Some Hidx.
  apply elem_of_seqZ in Hidx. cbv zeta.
  set (lo := Z.max 0 (label_idx - L)).
  (* the label *)
  destruct (s !! Z.to_nat label_idx) as [x|] eqn:Hx.
  2:{ apply lookup_ge_None in Hx. unfold py_len in Hidx. lia. }
  assert (Hget : py_getitem s label_idx = Ok x).
  { replace label_idx with (Z.of_nat (Z.to_nat label_idx)) by lia.
    by apply py_getitem_lookup. }
  destruct (py_getitem_Forall2 _ _ _ _ _ Hitems Hget) as (rx & Hgetr & Hrx).
  (* the slice *)
  destruct (alloc_ok h (Heap.OList (py_slice items lo label_idx)))
    as (c & Hc & Hfresh).
  assert (Hslice : Heap.list_slice sequence lo label_idx h
                   = Ok (c, <[c := Heap.OList (py_slice items lo label_idx)]> h)).
  { unfold Heap.list_slice.
    by rewrite (bind_ok _ _ _ _ _ (get_list_ok _ _ _ Hseq)). }
  set (h1 := <[c := Heap.OList (py_slice items lo label_idx)]> h) in *.
  assert (Hsub1 : h ⊆ h1) by (by apply insert_subseteq).
  (* the padding *)
  destruct (heap_padding_ok L (S (Z.to_nat L)) h1 c
              (py_slice items lo label_idx) (py_slice s lo label_idx))
    as (h2 & Hpad & Hframe & Hread).
  { apply lookup_insert_eq. }
  { apply py_slice_Forall2. eapply Forall2_impl; [exact Hitems|].
    intros r y Hr. cbn beta in *. by eapply lookup_weaken. }
  { unfold py_len. lia. }
  assert (Hsub2 : h ⊆ h2).
  { apply map_subseteq_spec. intros r o Ho. apply Hframe; [congruence|].
    by eapply lookup_weaken. }
  apply read_list_Some in Hread as (movies & Hmovies & Hctx).
  (* the reads *)
  assert (Hgetitem : Heap.list_getitem sequence label_idx h2 = Ok (rx, h2)).
  { unfold Heap.list_getitem.
    rewrite (bind_ok _ _ _ _ _
               (get_list_ok _ _ _ (lookup_weaken _ _ _ _ Hseq Hsub2))).
    unfold Heap.lift. by rewrite Hgetr. }
  assert (Hlabel : Heap.record_movie_id rx h2 = Ok (movie_id x, h2)).
  { unfold Heap.record_movie_id.
    by rewrite (lookup_weaken _ _ _ _ Hrx Hsub2). }
  eexists _, h2. split; [by rewrite Hget|]. split; [|exact Hsub2].
  rewrite (bind_ok _ _ _ _ _ Hslice), (bind_ok _ _ _ _ _ Hpad),
    (bind_ok _ _ _ _ _ Hgetitem), (bind_ok _ _ _ _ _ Hlabel),
    (bind_ok _ _ _ _ _ (get_list_ok _ _ _ Hmovies)),
    (bind_ok _ _ _ _ _ (heap_movie_ids_ok _ _ _ [] Hctx)).
  reflexivity.
Qed.

Lemma heap_generate_user_ok L h0 h sequence s :
  h0 ⊆ h →
  Heap.read_list h0 sequence = Some s →
  ∃ examples h',
    generate_examples_from_user_sequence L s = Ok examples ∧
    Heap.generate_examples_from_user_sequence L sequence h = Ok (examples, h') ∧
    h ⊆ h'.
Proof.
  intros Hsub Hread.
  pose proof (read_list_mono _ _ _ _ Hsub Hread) as Hread'.
  destruct (proj1 (read_list_Some _ _ _) Hread') as (items & Hseq & Hitems).
  unfold Heap.generate_examples_from_user_sequence,
    generate_examples_from_user_sequence.
  rewrite (bind_ok _ _ _ _ _ (list_len_ok _ _ _ Hseq)).
  replace (py_len items) with (py_len s)
    by (unfold py_len; by rewrite (Forall2_length _ _ _ Hitems)).
  eapply (heap_for_each_ok (λ x y, x = y ∧ y ∈ py_range 1 (py_len s)));
    [| |reflexivity].
  - apply Forall_Forall2_diag, Forall_forall. done.
  - intros x y acc h1 [-> Hy] Hsub1.
    apply heap_example_ok; [|done].
    eapply read_list_mono; [|exact Hread]. by etrans.
Qed.

Lemma heap_generate_ok L M h d sequences :
  Heap.read_sequences h d = Some sequences →
  ∃ examples h',
    generate_examples_from_user_sequences L M sequences = Ok examples ∧
    Heap.generate_examples_from_user_sequences L M d h = Ok (examples, h') ∧
    h ⊆ h'.
Proof.
  intros (entries & Hd & Hentries)%read_sequences_Some.
  unfold Heap.generate_examples_from_user_sequences,
    generate_examples_from_user_sequences.
  assert (Hvalues : Heap.sequences_values d h = Ok (entries.*2, h)).
  { unfold Heap.sequences_values. by rewrite Hd. }
  rewrite (bind_ok _ _ _ _ _ Hvalues).
  eapply (heap_for_each_ok (λ l s, Heap.read_list h l = Some s));
    [| |reflexivity].
  - unfold dict_values. apply Forall2_fmap.
    eapply Forall2_impl; [exact Hentries|]. by intros ?? [_ ?].
  - intros l s acc h1 Hl Hsub1.
    pose proof (read_list_mono _ _ _ _ Hsub1 Hl) as Hl1.
    destruct (proj1 (read_list_Some _ _ _) Hl1) as (items & Hseq & Hitems).
    rewrite (bind_ok _ _ _ _ _ (list_len_ok _ _ _ Hseq)).
    replace (py_len items) with (py_len s)
      by (unfold py_len; by rewrite (Forall2_length _ _ _ Hitems)).
    destruct (py_len s <? M).
    + exists acc, h1. done.
    + destruct (heap_generate_user_ok L h h1 l s Hsub1 Hl)
        as (exs & h2 & Hp & Hb & Hsub2).
      exists (acc ++ exs), h2. rewrite Hp, (bind_ok _ _ _ _ _ Hb). done.
Qed.
End HeapFacts.

(** C10: the builder leaves its input as it was.  When the store holds the
    sequences dictionary [d], the call returns, with the examples the
    builder over values gives; every object of the store before the call,
    the dictionary, every user's list and every entry of it, is there
    unchanged after the call, so the dictionary still reads as the same
    sequences. *)
Theorem C10_input_unchanged
    (L M : Z) (h : gmap Heap.ref Heap.object) (d : Heap.ref)
    (sequences : sequences_dict) :
  Heap.read_sequences h d = Some sequences →
  ∃ examples h',
    Heap.generate_examples_from_user_sequences L M d h = Ok (examples, h') ∧
    (∀ r o, h !! r = Some o → h' !! r = Some o) ∧
    Heap.read_sequences h' d = Some sequences ∧
    generate_examples_from_user_sequences L M sequences = Ok examples.
Proof.
  intros Hread.
  destruct (heap_generate_ok L M h d sequences Hread)
    as (examples & h' & Hp & Hb & Hsub).
  exists examples, h'. repeat split; [done| |by eapply read_sequences_mono|done].
  intros r o Ho. by eapply lookup_weaken.
Qed.

Lemma C10_input_unchanged_witness :
  ∃ examples h',
    Heap.generate_examples_from_user_sequences 3 2 5%positive
      (list_to_map
         [(1%positive, Heap.ORecord (Interaction 11 100 5));
          (2%positive, Heap.ORecord (Interaction 12 101 4));
          (3%positive, Heap.ORecord (Interaction 13 102 3));
          (4%positive, Heap.OList [1; 2; 3]%positive);
          (5%positive, Heap.OSequences [(7, 4%positive)])])
    = Ok (examples, h') ∧
    examples = [Example [11; 0; 0] 12; Example [11; 12; 0] 13] ∧
    h' !! 4%positive = Some (Heap.OList [1; 2; 3]%positive).
Proof.
  destruct (C10_input_unchanged 3 2
              (list_to_map
                 [(1%positive, Heap.ORecord (Interaction 11 100 5));
                  (2%positive, Heap.ORecord (Interaction 12 101 4));
                  (3%positive, Heap.ORecord (Interaction 13 102 3));
                  (4%positive, Heap.OList [1; 2; 3]%positive);
                  (5%positive, Heap.OSequences [(7, 4%positive)])])
              5%positive
              [(7, [Interaction 11 100 5; Interaction 12 101 4;
                    Interaction 13 102 3])])
    as (examples & h' & Hrun & Hframe & _ & Hpure).
  - vm_compute. reflexivity.
  - exists examples, h'. split; [exact Hrun|]. split.
    + vm_compute in Hpure. congruence.
    + apply Hframe. vm_compute. reflexivity.
Defined.

(** * More on the sequence builder *)

(** X1: The output for a dictionary is the output for its first users followed
    by the output for the others: users are handled one by one, and none
    has an effect on another's examples. *)
Theorem generate_concat (L M : Z) (first others : sequences_dict) :
  ∃ ex_first ex_others,
    generate_examples_from_user_sequences L M first = Ok ex_first ∧
    generate_examples_from_user_sequences L M others = Ok ex_others ∧
    generate_examples_from_user_sequences L M (first ++ others)
    = Ok (ex_first ++ ex_others).
Proof.
  exists (mjoin (user_contribution L M <$> dict_values first)),
    (mjoin (user_contribution L M <$> dict_values others)).
  rewrite !generate_closed_form, dict_values_app, fmap_app, join_app. done.
Qed.

Lemma fmap_join_list {A B} (f : A → B) (ls : list (list A)) :
  f <$> mjoin ls = mjoin (fmap f <$> ls).
Proof.
  induction ls as [|l ls IH]; [done|].
  cbn [mjoin list_join fmap list_fmap]. rewrite fmap_app. f_equal. exact IH.
Qed.

(** X2: The labels of the output are, user after user, the movie ids of every
    entry but the first of every sequence which is long enough.  The first
    item of a user is never a label. *)
Theorem generate_labels (L M : Z) (sequences : sequences_dict) :
  ∃ examples,
    generate_examples_from_user_sequences L M sequences = Ok examples ∧
    label_movie_id <$> examples
    = mjoin ((λ sequence,
                if py_len sequence <? M then []
                else movie_id <$> drop 1 sequence) <$> dict_values sequences).
Proof.
  eexists. split; [apply generate_closed_form|].
  rewrite fmap_join_list, <- list_fmap_compose. f_equal.
  apply list_fmap_ext. intros _ s _. unfold compose, user_contribution.
  destruct (py_len s <? M); [done|]. apply label_user_examples.
Qed.

Lemma length_generated (L M : Z) (sequences : sequences_dict) :
  length (mjoin (user_contribution L M <$> dict_values sequences))
  = sum_list ((λ sequence,
                 if py_len sequence <? M then 0%nat
                 else (length sequence - 1)%nat) <$> dict_values sequences).
Proof.
  rewrite length_join, <- list_fmap_compose. f_equal.
  apply list_fmap_ext. intros _ s _. unfold compose, user_contribution.
  destruct (py_len s <? M); [done|]. apply length_user_examples.
Qed.

(** X3: The number of examples: every sequence which is long enough adds one
    less than its length. *)
Theorem generate_count (L M : Z) (sequences : sequences_dict) :
  ∃ examples,
    generate_examples_from_user_sequences L M sequences = Ok examples ∧
    length examples
    = sum_list ((λ sequence,
                   if py_len sequence <? M then 0%nat
                   else (length sequence - 1)%nat) <$> dict_values sequences).
Proof.
  eexists. split; [apply generate_closed_form|]. apply length_generated.
Qed.

Lemma user_examples_ids L (s s' : list interaction) :
  movie_id <$> s = movie_id <$> s' → user_examples L s = user_examples L s'.
Proof.
  intros Hids. unfold user_examples. apply list_eq. intros i.
  rewrite !list_lookup_imap, !lookup_drop.
  assert (Hi : movie_id <$> s !! (1 + i)%nat = movie_id <$> s' !! (1 + i)%nat)
    by (by rewrite <- !list_lookup_fmap, Hids).
  destruct (s !! (1 + i)%nat) as [x|], (s' !! (1 + i)%nat) as [x'|];
    try done.
  cbn in *. f_equal. unfold window_example.
  rewrite !fmap_take, !fmap_drop, Hids. congruence.
Qed.

(** X4: The builder reads the movie ids only: two dictionaries whose sequences
    have the same movie ids give the same examples, whatever the timestamps
    and ratings are. *)
Theorem generate_reads_movie_ids_only (L M : Z) (sequences sequences' : sequences_dict) :
  Forall2 (λ s s', movie_id <$> s = movie_id <$> s')
          (dict_values sequences) (dict_values sequences') →
  generate_examples_from_user_sequences L M sequences
  = generate_examples_from_user_sequences L M sequences'.
Proof.
  intros H. rewrite !generate_closed_form. do 2 f_equal.
  induction H as [|s s' values values' Hs _ IH]; [done|].
  cbn [fmap list_fmap]. f_equal; [|exact IH].
  unfold user_contribution, py_len.
  replace (length s') with (length s)
    by (by rewrite <- (length_fmap movie_id s), Hs, length_fmap).
  destruct (_ <? M); [done|]. by apply user_examples_ids.
Qed.

Lemma generate_reads_movie_ids_only_witness :
  generate_examples_from_user_sequences 2 2
    [(1, [Interaction 11 100 5; Interaction 12 200 4; Interaction 13 300 1])]
  = generate_examples_from_user_sequences 2 2
      [(9, [Interaction 11 7 1; Interaction 12 7 2; Interaction 13 3 3])].
Proof.
  apply generate_reads_movie_ids_only. vm_compute. repeat constructor.
Defined.

(** X5: A window length of zero or less gives empty contexts and no error: a
    negative window length behaves as zero. *)
Theorem generate_nonpositive_window (L M : Z) (sequences : sequences_dict) :
  L ≤ 0 →
  ∃ examples,
    generate_examples_from_user_sequences L M sequences = Ok examples ∧
    Forall (λ e, context_movie_id e = []) examples.
Proof.
  intros HL. eexists. split; [apply generate_closed_form|].
  apply Forall_forall. intros e He.
  apply elem_of_generated in He as (s & i & x & _ & _ & _ & ->).
  unfold window_example. cbn [context_movie_id].
  replace (Z.to_nat L) with 0%nat by lia. by rewrite Nat.min_0_r.
Qed.

Lemma generate_nonpositive_window_witness :
  generate_examples_from_user_sequences (-2) 2
    [(1, [Interaction 11 100 5; Interaction 12 200 4; Interaction 13 300 1])]
  = Ok [Example [] 12; Example [] 13].
Proof.
  destruct (generate_nonpositive_window (-2) 2
              [(1, [Interaction 11 100 5; Interaction 12 200 4;
                    Interaction 13 300 1])])
    as (examples & Hgen & _).
  - lia.
  - rewrite Hgen. vm_compute in Hgen. by rewrite <- Hgen.
Defined.

(** X6: From one split position to the next the window moves by one item.
    While the history is shorter than the window, the next context is the
    history so far, then the label just used, then the padding; once the
    window is full, the next context drops its oldest id and takes the
    label just used as its newest. *)
Theorem sliding_window
    (L : Z) (sequence : list interaction) (i : nat) (x x' : interaction) :
  1 ≤ L →
  sequence !! S i = Some x →
  sequence !! S (S i) = Some x' →
  ∃ examples e e',
    generate_examples_from_user_sequence L sequence = Ok examples ∧
    examples !! i = Some e ∧
    examples !! S i = Some e' ∧
    label_movie_id e = movie_id x ∧
    (Z.of_nat (S i) < L →
     context_movie_id e'
     = take (S i) (context_movie_id e)
       ++ movie_id x :: replicate (Z.to_nat L - S (S i)) 0) ∧
    (L ≤ Z.of_nat (S i) →
     context_movie_id e' = drop 1 (context_movie_id e) ++ [movie_id x]).
Proof.
  intros HL Hx Hx'.
  assert (Hlt : (S (S i) < length sequence)%nat) by (by eapply lookup_lt_Some).
  exists (user_examples L sequence), (window_example L sequence (S i) x),
    (window_example L sequence (S (S i)) x').
  split; [apply generate_user_closed_form|].
  split; [by apply lookup_user_examples|].
  split; [by apply lookup_user_examples|].
  split; [done|].
  unfold window_example. cbn [context_movie_id].
  set (n := Z.to_nat L). split.
  - intros Hgrow.
    replace (S i `min` n)%nat with (S i) by lia.
    replace (S (S i) `min` n)%nat with (S (S i)) by lia.
    rewrite !Nat.sub_diag, !drop_0.
    rewrite take_app_length' by (rewrite length_fmap, length_take; lia).
    rewrite (take_S_r _ _ _ Hx), fmap_app, <- app_assoc. done.
  - intros Hfull.
    replace (S i `min` n)%nat with n by lia.
    replace (S (S i) `min` n)%nat with n by lia.
    rewrite Nat.sub_diag. cbn [replicate]. rewrite !app_nil_r.
    replace (S (S i) - n)%nat with ((S i - n) + 1)%nat by lia.
    rewrite <- drop_drop.
    assert (Hn : drop (S i - n) sequence !! n = Some x).
    { rewrite lookup_drop. replace (S i - n + n)%nat with (S i) by lia. done. }
    rewrite (take_drop_commute (drop (S i - n) sequence) n 1).
    change (1 + n)%nat with (S n). rewrite (take_S_r _ _ _ Hn).
    rewrite drop_app_le by (rewrite length_take, length_drop; lia).
    by rewrite fmap_app, fmap_drop.
Qed.

Lemma sliding_window_witness :
  ∃ examples e e',
    generate_examples_from_user_sequence 2
      [Interaction 11 1 5; Interaction 12 2 5; Interaction 13 3 5;
       Interaction 14 4 5] = Ok examples ∧
    examples !! 1%nat = Some e ∧
    examples !! 2%nat = Some e' ∧
    context_movie_id e' = drop 1 (context_movie_id e) ++ [13].
Proof.
  destruct (sliding_window 2
              [Interaction 11 1 5; Interaction 12 2 5; Interaction 13 3 5;
               Interaction 14 4 5] 1 (Interaction 13 3 5) (Interaction 14 4 5))
    as (examples & e & e' & Hgen & He & He' & _ & _ & Hslide).
  - lia.
  - reflexivity.
  - reflexivity.
  - exists examples, e, e'. repeat split; try assumption. apply Hslide. lia.
Defined.

(** * More on get_movie_sequence_per_user *)

(** The loop over the rows, from a dictionary built so far. *)
Local Abbreviation collect_rows :=
  (foldl (λ (sequences : sequences_dict) (r : row),
            let '(user_id, movie_id, rating, timestamp) := r in
            dict_append sequences user_id
              {| movie_id := movie_id; timestamp := timestamp; rating := rating |})).

Local Abbreviation sort_values :=
  (fmap (M := list)
        (λ kv : Z * list interaction,
           let '(user_id, context) := kv in (user_id, sort_by_timestamp context))).

Lemma sort_values_keys (sequences : sequences_dict) :
  (sort_values sequences).*1 = sequences.*1.
Proof.
  rewrite <- list_fmap_compose. apply list_fmap_ext. by intros _ [??] _.
Qed.

(** A user's sequence is the stable sort of that user's rows. *)
Lemma dict_get_sequences (ratings_df : list row) (user_id : Z) :
  dict_get (get_movie_sequence_per_user ratings_df) user_id
  = match rows_of_user ratings_df user_id with
    | [] => None
    | group => Some (sort_by_timestamp group)
    end.
Proof.
  unfold get_movie_sequence_per_user.
  rewrite dict_get_sorted, dict_get_rows. cbn [dict_get].
  by destruct (rows_of_user ratings_df user_id).
Qed.

Lemma rows_of_user_nil (ratings_df : list row) (user_id : Z) :
  rows_of_user ratings_df user_id = [] ↔ user_id ∉ row_user <$> ratings_df.
Proof.
  induction ratings_df as [|[[[u m] r] t] rows IH].
  - split; [intros _; apply not_elem_of_nil|done].
  - rewrite rows_of_user_cons, fmap_cons, not_elem_of_cons. cbn [row_user].
    destruct (decide (u = user_id)) as [->|Hne];
      [split; [done|by intros [? _]]|].
    rewrite IH. split; [intros ?; split; [congruence|done]|tauto].
Qed.

Lemma dict_get_None (sequences : sequences_dict) (user_id : Z) :
  dict_get sequences user_id = None ↔ user_id ∉ sequences.*1.
Proof.
  induction sequences as [|[k v] rest IH].
  - split; [intros _; apply not_elem_of_nil|done].
  - cbn [dict_get]. rewrite fmap_cons, not_elem_of_cons. cbn [fst].
    destruct (decide (k = user_id)) as [->|Hne];
      [split; [done|by intros [? _]]|].
    rewrite IH. split; [intros ?; split; [congruence|done]|tauto].
Qed.

Lemma dict_get_elem (sequences : sequences_dict) (user_id : Z) v :
  NoDup sequences.*1 → (user_id, v) ∈ sequences →
  dict_get sequences user_id = Some v.
Proof.
  induction sequences as [|[k w] rest IH]; intros Hnd Hin.
  - by apply not_elem_of_nil in Hin.
  - rewrite fmap_cons in Hnd. apply NoDup_cons in Hnd as [Hk Hnd].
    cbn [dict_get]. apply elem_of_cons in Hin as [[= <- <-]|Hin].
    + by rewrite decide_True.
    + rewrite decide_False; [by apply IH|].
      intros ->. apply Hk. apply list_elem_of_fmap. by exists (user_id, v).
Qed.

Lemma collect_rows_keys_prefix (ratings_df : list row) (sequences : sequences_dict) :
  sequences.*1 `prefix_of` (collect_rows sequences ratings_df).*1.
Proof.
  revert sequences.
  induction ratings_df as [|[[[u m] r] t] rows IH]; intros sequences; [done|].
  cbn [foldl]. etrans; [|apply IH].
  rewrite dict_keys_append. case_decide; [done|]. by apply prefix_app_r.
Qed.

(** X7: The users of the result are the users of the rows, each once, in the
    order of their first rows: the users of the first rows of the table are
    the first users of the result, whatever rows follow. *)
Theorem sequences_users (ratings_df more_rows : list row) (user_id : Z) :
  (user_id ∈ (get_movie_sequence_per_user ratings_df).*1
   ↔ user_id ∈ row_user <$> ratings_df)
  ∧ (get_movie_sequence_per_user ratings_df).*1
    `prefix_of` (get_movie_sequence_per_user (ratings_df ++ more_rows)).*1.
Proof.
  split.
  - destruct (decide (user_id ∈ row_user <$> ratings_df)) as [Hin|Hnin].
    + split; [done|]. intros _.
      destruct (decide (user_id ∈ (get_movie_sequence_per_user ratings_df).*1))
        as [|Hno]; [done|].
      apply dict_get_None in Hno. rewrite dict_get_sequences in Hno.
      destruct (rows_of_user ratings_df user_id) eqn:Hg; [|done].
      by apply rows_of_user_nil in Hg.
    + split; [|done]. intros Hkey. exfalso.
      apply rows_of_user_nil in Hnin.
      assert (Hno : dict_get (get_movie_sequence_per_user ratings_df) user_id = None)
        by (by rewrite dict_get_sequences, Hnin).
      by apply dict_get_None in Hno.
  - unfold get_movie_sequence_per_user.
    rewrite !sort_values_keys, foldl_app. apply collect_rows_keys_prefix.
Qed.

Lemma dict_append_values (sequences : sequences_dict) k x :
  mjoin (dict_values (dict_append sequences k x))
  ≡ₚ x :: mjoin (dict_values sequences).
Proof.
  unfold dict_values. induction sequences as [|[k' v] rest IH]; [done|].
  cbn [dict_append]. destruct (decide (k' = k)) as [->|Hne].
  - rewrite !fmap_cons. cbn [snd mjoin list_join].
    rewrite <- app_assoc. symmetry. apply Permutation_middle.
  - rewrite !fmap_cons. cbn [snd mjoin list_join].
    rewrite IH. by rewrite Permutation_middle.
Qed.

Lemma dict_append_nonempty (sequences : sequences_dict) k x :
  Forall (λ s, s ≠ []) (dict_values sequences) →
  Forall (λ s, s ≠ []) (dict_values (dict_append sequences k x)).
Proof.
  unfold dict_values. induction sequences as [|[k' v] rest IH]; intros H.
  - by repeat constructor.
  - cbn [dict_append]. rewrite fmap_cons in H. apply Forall_cons in H as [Hv H].
    destruct (decide (k' = k)) as [->|Hne]; rewrite fmap_cons;
      constructor; try done; [by destruct v|by apply IH].
Qed.

Lemma collect_rows_values (ratings_df : list row) (sequences : sequences_dict) :
  mjoin (dict_values (collect_rows sequences ratings_df))
  ≡ₚ mjoin (dict_values sequences) ++ (interaction_of_row <$> ratings_df).
Proof.
  revert sequences.
  induction ratings_df as [|[[[u m] r] t] rows IH]; intros sequences.
  - by rewrite app_nil_r.
  - cbn [foldl]. rewrite IH, dict_append_values, fmap_cons.
    cbn [interaction_of_row app]. apply Permutation_middle.
Qed.

Lemma collect_rows_nonempty (ratings_df : list row) (sequences : sequences_dict) :
  Forall (λ s, s ≠ []) (dict_values sequences) →
  Forall (λ s, s ≠ []) (dict_values (collect_rows sequences ratings_df)).
Proof.
  revert sequences.
  induction ratings_df as [|[[[u m] r] t] rows IH]; intros sequences H; [done|].
  cbn [foldl]. by apply IH, dict_append_nonempty.
Qed.

Lemma sort_values_values (sequences : sequences_dict) :
  mjoin (dict_values (sort_values sequences)) ≡ₚ mjoin (dict_values sequences)
  ∧ (Forall (λ s, s ≠ []) (dict_values sequences) →
     Forall (λ s, s ≠ []) (dict_values (sort_values sequences))).
Proof.
  unfold dict_values. induction sequences as [|[k v] rest [IH1 IH2]]; [done|].
  rewrite !fmap_cons. cbn [snd mjoin list_join]. split.
  - by rewrite sort_by_timestamp_perm, IH1.
  - intros [Hv Hne]%Forall_cons. constructor; [|by apply IH2].
    intros Hnil. apply Hv, Permutation_nil_r. rewrite <- Hnil.
    symmetry. apply sort_by_timestamp_perm.
Qed.

(** X8: No row is lost and none is added: the entries of all the sequences
    together are the rows of the table, and no user has an empty
    sequence. *)
Theorem sequences_hold_every_row (ratings_df : list row) :
  mjoin (dict_values (get_movie_sequence_per_user ratings_df))
  ≡ₚ interaction_of_row <$> ratings_df
  ∧ Forall (λ s, s ≠ []) (dict_values (get_movie_sequence_per_user ratings_df)).
Proof.
  unfold get_movie_sequence_per_user. cbv zeta. split.
  - rewrite (proj1 (sort_values_values _)). apply (collect_rows_values _ []).
  - apply sort_values_values, collect_rows_nonempty. constructor.
Qed.

(** X9: A user's sequence is a function of that user's rows alone: two tables
    which hold the same rows for a user, in the same order, give that user
    the same sequence, whatever the other users' rows are and wherever they
    stand between the user's rows. *)
Theorem user_sequence_independent (ratings_df ratings_df' : list row) (user_id : Z) :
  rows_of_user ratings_df user_id = rows_of_user ratings_df' user_id →
  dict_get (get_movie_sequence_per_user ratings_df) user_id
  = dict_get (get_movie_sequence_per_user ratings_df') user_id.
Proof. intros H. by rewrite !dict_get_sequences, H. Qed.

Lemma user_sequence_independent_witness :
  dict_get (get_movie_sequence_per_user
              [(1, 11, 5, 30); (2, 21, 4, 5); (1, 12, 3, 10); (3, 31, 1, 7)]) 1
  = dict_get (get_movie_sequence_per_user
                [(4, 41, 2, 99); (1, 11, 5, 30); (1, 12, 3, 10)]) 1.
Proof. apply user_sequence_independent. vm_compute. reflexivity. Defined.

Lemma sort_by_timestamp_sorted_id (l : list interaction) :
  StronglySorted (λ x y, timestamp x ≤ timestamp y) l → sort_by_timestamp l = l.
Proof.
  induction 1 as [|x l Hl IH Hx]; [done|].
  cbn [sort_by_timestamp]. rewrite IH. destruct Hx as [|y l' Hxy _]; [done|].
  cbn [insert_by_timestamp]. by destruct (Z.leb_spec (timestamp x) (timestamp y)); [|lia].
Qed.

(** X10: When a user's rows already come in the order of their timestamps, the
    user's sequence is these rows in the order of the table. *)
Theorem sorted_rows_keep_order (ratings_df : list row) (user_id : Z) :
  user_id ∈ row_user <$> ratings_df →
  StronglySorted (λ x y, timestamp x ≤ timestamp y)
                 (rows_of_user ratings_df user_id) →
  dict_get (get_movie_sequence_per_user ratings_df) user_id
  = Some (rows_of_user ratings_df user_id).
Proof.
  intros Hin Hsorted. rewrite dict_get_sequences.
  destruct (rows_of_user ratings_df user_id) as [|x group] eqn:Hg.
  - by apply rows_of_user_nil in Hg.
  - by rewrite sort_by_timestamp_sorted_id.
Qed.

Lemma sorted_rows_keep_order_witness :
  dict_get (get_movie_sequence_per_user
              [(1, 11, 5, 10); (2, 21, 4, 5); (1, 12, 3, 10); (1, 13, 1, 70)]) 1
  = Some [Interaction 11 10 5; Interaction 12 10 3; Interaction 13 70 1].
Proof.
  apply (sorted_rows_keep_order
           [(1, 11, 5, 10); (2, 21, 4, 5); (1, 12, 3, 10); (1, 13, 1, 70)] 1).
  - vm_compute. left.
  - simpl. repeat constructor; simpl; lia.
Defined.

(** X11: From the rows to the examples: every example comes from one user's
    sequence, its context being the ids of the entries which stand just
    before the label's entry in that sequence, followed by the padding.  So
    no entry of a context is later in time than the label's entry. *)
Theorem examples_look_back_only (L M : Z) (ratings_df : list row) :
  ∃ examples,
    generate_examples_from_user_sequences L M
      (get_movie_sequence_per_user ratings_df) = Ok examples ∧
    Forall (λ e,
              ∃ user_id sequence before window x after,
                dict_get (get_movie_sequence_per_user ratings_df) user_id
                = Some sequence ∧
                sequence = before ++ window ++ x :: after ∧
                context_movie_id e
                = (movie_id <$> window)
                  ++ replicate (Z.to_nat L - length window) 0 ∧
                label_movie_id e = movie_id x ∧
                Forall (λ c, timestamp c ≤ timestamp x) window)
           examples.
Proof.
  eexists. split; [apply generate_closed_form|].
  apply Forall_forall. intros e He.
  apply elem_of_generated in He as (s & i & x & Hs & _ & Hx & ->).
  apply list_elem_of_fmap in Hs as ([user_id s'] & -> & Hin). cbn [snd] in *.
  assert (Hget : dict_get (get_movie_sequence_per_user ratings_df) user_id
                 = Some s').
  { apply dict_get_elem; [|done].
    unfold get_movie_sequence_per_user. cbv zeta.
    rewrite sort_values_keys. apply dict_keys_rows. constructor. }
  assert (Hlt : (S i < length s')%nat) by (by eapply lookup_lt_Some).
  set (k := (S i `min` Z.to_nat L)%nat).
  assert (Hsplit : s' = take (S i - k) s' ++ take k (drop (S i - k) s')
                          ++ x :: drop (S (S i)) s').
  { rewrite <- (take_drop (S i - k) s') at 1. f_equal.
    rewrite <- (take_drop k (drop (S i - k) s')) at 1. f_equal.
    rewrite drop_drop. replace (S i - k + k)%nat with (S i) by lia.
    by apply drop_S. }
  exists user_id, s', (take (S i - k) s'), (take k (drop (S i - k) s')), x,
    (drop (S (S i)) s').
  split; [done|]. split; [done|].
  split; [unfold window_example; cbn [context_movie_id]; fold k;
          by rewrite (window_length s' (S i)) by lia|].
  split; [done|].
  assert (Hsorted : StronglySorted (λ a b, timestamp a ≤ timestamp b) s').
  { rewrite dict_get_sequences in Hget.
    destruct (rows_of_user ratings_df user_id) as [|y group]; [done|].
    assert (Heq : s' = sort_by_timestamp (y :: group)) by congruence.
    rewrite Heq. apply sort_by_timestamp_sorted. }
  rewrite Hsplit in Hsorted. apply StronglySorted_app_1_r in Hsorted.
  apply Forall_forall. intros c Hc.
  apply (StronglySorted_app_1_elem_of _ _ _ c x Hsorted); [done|left].
Qed.

(** X12: From the rows to the number of examples: a user with [n] rows adds
    [n - 1] examples when [n] reaches the minimum sequence length, and none
    otherwise. *)
Theorem examples_per_user_rows (L M : Z) (ratings_df : list row) :
  ∃ examples,
    generate_examples_from_user_sequences L M
      (get_movie_sequence_per_user ratings_df) = Ok examples ∧
    length examples
    = sum_list ((λ user_id,
                   let n := length (rows_of_user ratings_df user_id) in
                   if Z.of_nat n <? M then 0%nat else (n - 1)%nat)
                  <$> (get_movie_sequence_per_user ratings_df).*1).
Proof.
  eexists. split; [apply generate_closed_form|].
  rewrite length_generated. f_equal.
  unfold dict_values. rewrite <- !list_fmap_compose.
  apply list_fmap_ext. intros i [user_id s] Hi. unfold compose. cbn [fst snd].
  assert (Hget : dict_get (get_movie_sequence_per_user ratings_df) user_id
                 = Some s).
  { apply dict_get_elem; [|by eapply list_elem_of_lookup_2].
    unfold get_movie_sequence_per_user. cbv zeta.
    rewrite sort_values_keys. apply dict_keys_rows. constructor. }
  rewrite dict_get_sequences in Hget.
  destruct (rows_of_user ratings_df user_id) as [|y group] eqn:Hg; [done|].
  assert (Hs : length s = length (y :: group)).
  { assert (Heq : s = sort_by_timestamp (y :: group)) by congruence.
    rewrite Heq. apply Permutation_length, sort_by_timestamp_perm. }
  unfold py_len. by rewrite Hs.
Qed.

(** * The train and test split, and the columns of a batch *)

(** X13: Whatever the split index is, also when it is negative or past the end,
    every example goes to exactly one of the two parts and keeps its place:
    the training examples followed by the test examples are the examples. *)
Theorem train_test_split_partition {A} (examples : list A) (split_index : Z) :
  (train_test_split examples split_index).1
  ++ (train_test_split examples split_index).2 = examples.
Proof.
  unfold train_test_split, py_slice, slice_bound, py_len. cbn [fst snd].
  change (0 <? 0) with false. cbv iota.
  rewrite (Z.min_l 0) by lia. rewrite drop_0.
  set (n := Z.of_nat (length examples)).
  destruct (Z.ltb_spec n 0) as [?|_]; [lia|]. rewrite Z.min_id.
  assert (Hk : ∀ k : nat, (k ≤ length examples)%nat →
               take k examples
               ++ take (Z.to_nat (n - Z.of_nat k)) (drop k examples) = examples).
  { intros k Hk. rewrite (take_ge (drop k examples)); [apply take_drop|].
    rewrite length_drop. lia. }
  destruct (Z.ltb_spec split_index 0).
  - rewrite Z.sub_0_r.
    replace (n - Z.max (split_index + n) 0)
      with (n - Z.of_nat (Z.to_nat (Z.max (split_index + n) 0))) by lia.
    apply Hk. lia.
  - rewrite Z.sub_0_r.
    replace (n - Z.min split_index n)
      with (n - Z.of_nat (Z.to_nat (Z.min split_index n))) by lia.
    apply Hk. lia.
Qed.

Section DictOfListsFacts.
Context {K V : Type} `{EqDecision K}.
Implicit Types (key k : K) (value : V) (dictionary : list (K * V))
  (dict_of_lists : list (K * list V)).

Lemma items_get_defaultdict_append dict_of_lists key value k :
  items_get (defaultdict_append dict_of_lists key value) k
  = if decide (key = k)
    then Some (default [] (items_get dict_of_lists k) ++ [value])
    else items_get dict_of_lists k.
Proof.
  induction dict_of_lists as [|[k' v] rest IH]; cbn [defaultdict_append items_get].
  - destruct (decide (key = k)); done.
  - destruct (decide (k' = key)) as [->|Hne]; cbn [items_get].
    + destruct (decide (key = k)); done.
    + rewrite IH.
      destruct (decide (k' = k)), (decide (key = k)); congruence.
Qed.

Lemma items_get_None {X} (d : list (K * X)) k :
  k ∉ d.*1 → items_get d k = None.
Proof.
  induction d as [|[k' v] rest IH]; [done|].
  rewrite fmap_cons, not_elem_of_cons. cbn [fst items_get]. intros [Hne Hnin].
  rewrite decide_False by congruence. by apply IH.
Qed.

(** One dictionary of the list: each of its items goes to the end of the
    column of its key. *)
Lemma items_get_add_dictionary dictionary dict_of_lists k :
  NoDup dictionary.*1 →
  items_get
    (foldl (λ dict_of_lists kv,
              let '(key, value) := kv in
              defaultdict_append dict_of_lists key value)
           dict_of_lists dictionary) k
  = match items_get dictionary k with
    | Some value => Some (default [] (items_get dict_of_lists k) ++ [value])
    | None => items_get dict_of_lists k
    end.
Proof.
  revert dict_of_lists.
  induction dictionary as [|[k0 v0] rest IH]; intros dict_of_lists Hnd; [done|].
  rewrite fmap_cons in Hnd. apply NoDup_cons in Hnd as [Hk0 Hnd].
  cbn [foldl items_get]. rewrite IH, items_get_defaultdict_append by done.
  destruct (decide (k0 = k)) as [->|Hne]; [|done].
  by rewrite (items_get_None rest k Hk0).
Qed.

Lemma items_get_add_dictionaries (list_of_dicts : list (list (K * V)))
    dict_of_lists k :
  Forall (λ dictionary, NoDup dictionary.*1) list_of_dicts →
  items_get
    (foldl (λ dict_of_lists dictionary,
              foldl (λ dict_of_lists kv,
                       let '(key, value) := kv in
                       defaultdict_append dict_of_lists key value)
                    dict_of_lists dictionary)
           dict_of_lists list_of_dicts) k
  = match omap (λ dictionary, items_get dictionary k) list_of_dicts with
    | [] => items_get dict_of_lists k
    | column => Some (default [] (items_get dict_of_lists k) ++ column)
    end.
Proof.
  intros Hnd. revert dict_of_lists.
  induction Hnd as [|dictionary rest Hd _ IH]; intros dict_of_lists; [done|].
  cbn [foldl omap list_omap]. rewrite IH, items_get_add_dictionary by done.
  destruct (items_get dictionary k) as [value|];
    destruct (omap _ rest) as [|v column]; try done.
  cbn [default from_option id]. by rewrite <- app_assoc.
Qed.

(** X14: The column of a key holds the values the dictionaries have for this
    key, one for each dictionary which has the key, in the order of the
    list; a key which no dictionary has is not in the result. *)
Theorem dict_of_lists_column (list_of_dicts : list (list (K * V))) k :
  Forall (λ dictionary, NoDup dictionary.*1) list_of_dicts →
  items_get (list_of_dicts_to_dict_of_lists list_of_dicts) k
  = match omap (λ dictionary, items_get dictionary k) list_of_dicts with
    | [] => None
    | column => Some column
    end.
Proof.
  intros Hnd. unfold list_of_dicts_to_dict_of_lists.
  rewrite items_get_add_dictionaries by done. cbn [items_get].
  by destruct (omap _ list_of_dicts).
Qed.
End DictOfListsFacts.

Lemma dict_of_lists_column_witness :
  items_get
    (list_of_dicts_to_dict_of_lists
       [[(1, 10); (2, 20)]; [(2, 21)]; [(2, 22); (1, 12)]]) 1
  = Some [10; 12].
Proof.
  rewrite (dict_of_lists_column [[(1, 10); (2, 20)]; [(2, 21)]; [(2, 22); (1, 12)]] 1).
  - reflexivity.
  - apply (bool_decide_unpack _). vm_compute. exact I.
Defined.

Lemma example_columns_from (examples : list example) (contexts labels : list field_value) :
  foldl (λ dict_of_lists dictionary,
           foldl (λ dict_of_lists kv,
                    let '(key, value) := kv in
                    defaultdict_append dict_of_lists key value)
                 dict_of_lists dictionary)
        [("context_movie_id"%string, contexts); ("label_movie_id"%string, labels)]
        (example_items <$> examples)
  = [("context_movie_id"%string,
      contexts ++ ((λ e, FList (context_movie_id e)) <$> examples));
     ("label_movie_id"%string,
      labels ++ ((λ e, FInt (label_movie_id e)) <$> examples))].
Proof.
  revert contexts labels.
  induction examples as [|e examples IH]; intros contexts labels.
  - cbn. by rewrite !app_nil_r.
  - rewrite fmap_cons. cbn [foldl example_items defaultdict_append].
    repeat first [ rewrite decide_True by done
                 | rewrite decide_False by done
                 | progress cbn [defaultdict_append foldl] ].
    rewrite IH, <- !app_assoc. done.
Qed.

(** X15: The examples as two columns: for a list of examples which is not empty
    the result has the two keys of an example, the contexts under the first
    and the labels under the second, each in the order of the examples, so
    both columns are as long as the list.  For the empty list the result has
    no key at all. *)
Theorem example_columns (examples : list example) :
  list_of_dicts_to_dict_of_lists (example_items <$> examples)
  = match examples with
    | [] => []
    | _ =>
        [("context_movie_id"%string,
          (λ e, FList (context_movie_id e)) <$> examples);
         ("label_movie_id"%string,
          (λ e, FInt (label_movie_id e)) <$> examples)]
    end.
Proof.
  destruct examples as [|e examples]; [done|].
  unfold list_of_dicts_to_dict_of_lists. rewrite fmap_cons.
  cbn [foldl example_items defaultdict_append].
  repeat first [ rewrite decide_True by done
               | rewrite decide_False by done
               | progress cbn [defaultdict_append] ].
  by rewrite example_columns_from.
Qed.

(** * More on compute_loss *)


(** X17: Two examples of a batch with the same label id have the same column of
    scores, and still each is a negative for the other's query: the labels
    are one on the diagonal and zero at the other example's column.  The
    method does not look for repeated label ids. *)
Theorem repeated_label_is_a_negative {R W Loss : Type}
    (zero one : R) (add mul : R → R → R)
    (embedding_dimension : nat) (embeddings : Z → nat → R)
    (loss_fn : tensor → tensor → W → Loss)
    (y : list Z) (query_embeddings : tensor) (sample_weight : W)
    (i j : nat) (id : Z) :
  shape1 query_embeddings = embedding_dimension →
  i ≠ j →
  y !! i = Some id →
  y !! j = Some id →
  ∃ labels scores,
    compute_loss zero one add mul embedding_dimension embeddings loss_fn
      y query_embeddings sample_weight
    = Ok (loss_fn labels scores sample_weight) ∧
    (∀ q : nat, entry scores q i = entry scores q j) ∧
    entry labels i i = one ∧
    entry labels i j = zero ∧
    entry labels j i = zero.
Proof.
  intros Hq Hij Hi Hj.
  unfold compute_loss, matmul.
  cbn [transpose candidate_model shape0 shape1 entry].
  rewrite decide_True by exact Hq.
  eexists _, _. split; [reflexivity|]. cbn [entry eye].
  rewrite (nth_lookup_Some _ _ _ _ Hi), (nth_lookup_Some _ _ _ _ Hj).
  rewrite decide_True by done. rewrite !decide_False by done. done.
Qed.

Lemma repeated_label_is_a_negative_witness :
  ∃ labels scores,
    compute_loss 0 1 Z.add Z.mul 2 (λ id k, id * 10 + Z.of_nat k)
      (λ labels scores (_ : unit), (labels, scores))
      [3; 3] (Tensor 2 2 (λ i j, Z.of_nat (i + 2 * j))) ()
    = Ok (labels, scores) ∧
    entry scores 1 0 = entry scores 1 1 ∧
    entry labels 0 1 = 0.
Proof.
  destruct (repeated_label_is_a_negative 0 1 Z.add Z.mul 2
              (λ id k, id * 10 + Z.of_nat k)
              (λ labels scores (_ : unit), (labels, scores))
              [3; 3] (Tensor 2 2 (λ i j, Z.of_nat (i + 2 * j))) () 0%nat 1%nat 3)
    as (labels & scores & Hloss & Hsame & _ & Hneg & _).
  - reflexivity.
  - lia.
  - reflexivity.
  - reflexivity.
  - exists labels, scores. split; [exact Hloss|]. split; [apply Hsame|exact Hneg].
Defined.
